(** * A shallow embedding of [s3_reader.py] (package [s3_reader])

    The module wraps an S3 client: paginated listing of keys or of
    common prefixes, download of objects, and a thread-pool fan-out over
    many prefixes or keys.  The remote service, the thread pool and the
    local filesystem are modelled as explicit data threaded through the
    functions; Python exceptions are the [Raise] branch of [Exc]. *)

From Stdlib Require Import List String Ascii Bool Arith Lia Permutation.
Import ListNotations.
Open Scope string_scope.
Open Scope list_scope.

(** ** Python exceptions and results *)

Inductive exn :=
| TypeError          (* e.g. [dict.update(None)], [len(None)] *)
| ValueError         (* [raise ValueError(...)] in [download_by_key] *)
| RuntimeError       (* the executor cannot start a worker thread *)
| FileNotFoundError  (* [os.makedirs('')], missing parent directory *)
| PermissionError    (* the OS refuses a directory or a file *)
| OSError            (* a failed [f.write] or [close]: disk full, I/O error *)
| ClientError        (* a failed [list_objects_v2] request *)
| NoSuchKey          (* a failed [download_fileobj] *)
| JSONDecodeError    (* [json.loads] on bytes that are not JSON *)
| ProfileNotFound.   (* [boto3.Session(...)] cannot be built *)

(** A Python computation either returns a value or raises. *)
Inductive Exc (A : Type) :=
| Ok (a : A)
| Raise (e : exn).
Arguments Ok {A} a.
Arguments Raise {A} e.

(** ** [os.path] on POSIX paths *)

Definition slash : ascii := "/"%char.

Definition starts_with_slash (s : string) : bool :=
  match s with
  | String c _ => Ascii.eqb c slash
  | EmptyString => false
  end.

Definition ends_with_slash (s : string) : bool :=
  match rev (list_ascii_of_string s) with
  | c :: _ => Ascii.eqb c slash
  | [] => false
  end.

(** [posixpath.join(a, b)] for two components. *)
Definition os_path_join (a b : string) : string :=
  if starts_with_slash b then b
  else if String.eqb a "" then b
  else if ends_with_slash a then a ++ b
  else a ++ "/" ++ b.

(** Length of [p[:p.rfind('/') + 1]]. *)
Fixpoint head_len_aux (l : list ascii) (pos last : nat) : nat :=
  match l with
  | [] => last
  | c :: l' =>
      head_len_aux l' (S pos) (if Ascii.eqb c slash then S pos else last)
  end.

Fixpoint rstrip_slash_rev (l : list ascii) : list ascii :=
  match l with
  | c :: l' => if Ascii.eqb c slash then rstrip_slash_rev l' else l
  | [] => []
  end.

(** [posixpath.dirname(p)]: [head = p[:i]] with [i = p.rfind('/') + 1];
    trailing slashes are stripped unless [head] is made of slashes only. *)
Definition os_path_dirname (p : string) : string :=
  let l := list_ascii_of_string p in
  let head := firstn (head_len_aux l 0 0) l in
  let stripped := rev (rstrip_slash_rev (rev head)) in
  match stripped with
  | [] => string_of_list_ascii head
  | _ => string_of_list_ascii stripped
  end.

(** ** The listing service

    A listing response (the part of [list_objects_v2]'s answer the code
    reads): the keys of [Contents], the prefixes of [CommonPrefixes] and
    [NextContinuationToken], absent as [None]. *)
Record page := mk_page {
  contents : list string;
  common_prefixes : list string;
  next_token : option string
}.

(** The arguments of one [list_objects_v2] call. *)
Record request := mk_request {
  rq_bucket : string;
  rq_prefix : string;
  rq_delimiter : option string;
  rq_token : option string
}.

(** A simulated listing client: it answers successive calls with the pages
    of its script, in order, and logs every request it receives; once the
    script is exhausted a call raises [ClientError]. *)
Record client := mk_client {
  script : list page;
  requests : list request
}.

Definition list_objects_v2 (c : client) (rq : request) : Exc page * client :=
  match script c with
  | [] => (Raise ClientError, mk_client [] (requests c ++ [rq]))
  | p :: rest => (Ok p, mk_client rest (requests c ++ [rq]))
  end.

(** [continuation_token := resp.get('NextContinuationToken')] used as the
    [while] condition: the loop goes on only for a truthy token, so an
    absent token and the empty string both stop it. *)
Definition truthy (t : option string) : option string :=
  match t with
  | Some s => if String.eqb s "" then None else Some s
  | None => None
  end.

Section Paginator.

Variable delimiter : option string.
(** [content.get('Key') for content in resp.get('Contents', [])] or
    [common_prefixes.get('Prefix') for ... in resp.get('CommonPrefixes', [])]. *)
Variable select : page -> list string.
Variables bucket prefix : string.

Definition listing_request (tok : option string) : request :=
  mk_request bucket prefix delimiter tok.

(** The [while] loop of [list_keys_by_prefix] / [list_prefixes_by_prefix],
    with [resp] the last response and [acc] the accumulator.  Each
    iteration is one [list_objects_v2] call (inlined: the client is given
    by its remaining script [pages] and its request [log]), which consumes
    one page of the script; that is what makes the recursion structural. *)
Fixpoint drain_loop (pages : list page) (log : list request) (resp : page)
    (acc : list string) {struct pages} : Exc (list string) * client :=
  match truthy (next_token resp) with
  | None => (Ok acc, mk_client pages log)
  | Some tok =>
      let rq := listing_request (Some tok) in
      match pages with
      | [] => (Raise ClientError, mk_client [] (log ++ [rq]))
      | p :: rest => drain_loop rest (log ++ [rq]) p (acc ++ select p)
      end
  end.

(** The body of the [try] block, then [except Exception: return []]. *)
Definition drain_listing (c : client) : list string * client :=
  let '(r, c') :=
    match list_objects_v2 c (listing_request None) with
    | (Raise e, c1) => (Raise e, c1)
    | (Ok resp, c1) => drain_loop (script c1) (requests c1) resp (select resp)
    end in
  match r with
  | Ok items => (items, c')
  | Raise _ => ([], c')
  end.

End Paginator.

(** [list_keys_by_prefix(client, bucket, prefix)]. *)
Definition list_keys_by_prefix (c : client) (bucket prefix : string)
    : list string * client :=
  drain_listing None contents bucket prefix c.

(** [list_prefixes_by_prefix(client, bucket, prefix)], with [Delimiter='/']. *)
Definition list_prefixes_by_prefix (c : client) (bucket prefix : string)
    : list string * client :=
  drain_listing (Some "/") common_prefixes bucket prefix c.

(** ** The bounded fan-out ([ThreadPoolExecutor] + [as_completed])

    What the scheduler decides, and what can fail around the pool: *)
Record runtime := mk_runtime {
  (** the outcome of [create_s3_client()] *)
  rt_create : Exc unit;
  (** [Some j]: submitting job [j] raises (no thread can be started) *)
  rt_fault : option nat;
  (** the completion order: the job indices as [as_completed] yields them *)
  rt_sched : list nat
}.

(** What the fan-out does to the shared client and to the pool. *)
Inductive event :=
| ClientCreated
| PoolCreated (n : nat)   (* [ThreadPoolExecutor(n)] *)
| UnitDone (i : nat)      (* job [i] has finished *)
| ClientClosed.

Definition max_workers : nat := 16.

(** The number of jobs submitted before a failing [executor.submit]. *)
Definition submitted (fault : option nat) (n : nat) : nat :=
  match fault with
  | None => n
  | Some j => Nat.min j n
  end.

Section FanOut.

Context {A R Acc S : Type}.
(** One unit of work, run against the shared state [S] (the client's log,
    the local filesystem); units are serialised in completion order. *)
Variable worker : A -> S -> R * S.
(** The fan-in step on [job.result()]: [keys.extend] or [data.update]. *)
Variable merge : Acc -> R -> Exc Acc.
Variable init : Acc.

(** The submitted jobs, run to completion in the order [sched]. *)
Fixpoint run_units (items : list A) (sched : list nat) (s : S)
    : list R * S * list event :=
  match sched with
  | [] => ([], s, [])
  | i :: sched' =>
      match nth_error items i with
      | Some a =>
          let '(r, s1) := worker a s in
          let '(rs, s2, ev) := run_units items sched' s1 in
          (r :: rs, s2, UnitDone i :: ev)
      | None => run_units items sched' s
      end
  end.

(** [for job in as_completed(jobs): acc.<merge>(job.result())]. *)
Fixpoint fan_in (acc : Acc) (rs : list R) : Exc Acc :=
  match rs with
  | [] => Ok acc
  | r :: rs' =>
      match merge acc r with
      | Ok acc' => fan_in acc' rs'
      | Raise e => Raise e
      end
  end.

(** The shape shared by [list_keys_by_prefixes], [list_prefixes_by_prefixes]
    and [download_by_keys]:
<<
    if len(items) > 0:
        client = create_s3_client()
        try:
            ...
            with ThreadPoolExecutor(min(max_workers, len(items))) as executor:
                jobs = [executor.submit(func, item) for item in items]
                for job in as_completed(jobs):
                    acc.<merge>(job.result())
        finally:
            client.close()
        return acc
>>
    [Ok None] is the implicit [return None] of an empty [items].  Leaving
    the [with] block, by a [return] or by an exception, runs
    [executor.shutdown(wait=True)]: every submitted job has finished
    before [finally] closes the client. *)
Definition fan_out (rt : runtime) (items : list A) (s : S)
    : Exc (option Acc) * S * list event :=
  if Nat.ltb 0 (List.length items) then
    match rt_create rt with
    | Raise e => (Raise e, s, [])
    | Ok _ =>
        let n := Nat.min max_workers (List.length items) in
        let m := submitted (rt_fault rt) (List.length items) in
        let '(rs, s', ev) :=
          run_units items (filter (fun i => Nat.ltb i m) (rt_sched rt)) s in
        let r :=
          if Nat.ltb m (List.length items) then Raise RuntimeError
          else match fan_in init rs with
               | Ok acc => Ok (Some acc)
               | Raise e => Raise e
               end in
        (r, s', ClientCreated :: PoolCreated n :: ev ++ [ClientClosed])
    end
  else (Ok None, s, []).

End FanOut.

(** ** Listing over many prefixes

    [listing p] is the sequence of pages the service returns for prefix
    [p]; all workers share one client, whose request log is the state. *)
Definition list_worker
    (drain : client -> string -> string -> list string * client)
    (listing : string -> list page) (bucket : string)
    (prefix : string) (log : list request) : list string * list request :=
  let '(items, c') := drain (mk_client (listing prefix) log) bucket prefix in
  (items, requests c').

(** [keys.extend(job.result())], [sub_level_prefixes.extend(job.result())] *)
Definition merge_extend (acc r : list string) : Exc (list string) :=
  Ok (acc ++ r).

Definition list_keys_by_prefixes (listing : string -> list page)
    (rt : runtime) (bucket : string) (prefixes : list string)
    (log : list request) : Exc (option (list string)) * list request * list event :=
  fan_out (list_worker list_keys_by_prefix listing bucket) merge_extend []
    rt prefixes log.

Definition list_prefixes_by_prefixes (listing : string -> list page)
    (rt : runtime) (bucket : string) (prefixes : list string)
    (log : list request) : Exc (option (list string)) * list request * list event :=
  fan_out (list_worker list_prefixes_by_prefix listing bucket) merge_extend []
    rt prefixes log.

(** ** Downloads *)

(** A Python [dict] in insertion order; assigning an existing key keeps
    its position and replaces its value. *)
Fixpoint dict_set {V} (k : string) (v : V) (d : list (string * V))
    : list (string * V) :=
  match d with
  | [] => [(k, v)]
  | (k', v') :: d' =>
      if String.eqb k k' then (k, v) :: d' else (k', v') :: dict_set k v d'
  end.

Fixpoint dict_get {V} (k : string) (d : list (string * V)) : option V :=
  match d with
  | [] => None
  | (k', v) :: d' => if String.eqb k k' then Some v else dict_get k d'
  end.

(** The value stored under a key: [json.loads(data)] or the raw bytes. *)
Inductive payload (J : Type) :=
| PDict (j : J)
| PBytes (b : list Byte.byte).
Arguments PDict {J} j.
Arguments PBytes {J} b.

(** The local filesystem: the directories created and the files written. *)
Record fsys := mk_fsys {
  fs_dirs : list string;
  fs_files : list (string * list Byte.byte)
}.

(** The state the download workers share: the [(bucket, key)] of every
    [download_fileobj] call made through the client, and the filesystem. *)
Record dl_state := mk_dl_state {
  fetches : list (string * string);
  fs : fsys
}.

Section Download.

(** The bucket contents: [store bucket key] is the object, [None] when
    [download_fileobj] raises for it. *)
Variable store : string -> string -> option (list Byte.byte).
(** Paths on which the OS refuses [mkdir] or [open(..., 'wb')]. *)
Variable denied : string -> bool.
(** [write_fault path = Some n]: once [path] is open, [f.write(data)] or
    the [close] of the [with] block fails (disk full, quota, I/O error)
    after the first [n] bytes of [data] reached the file. *)
Variable write_fault : string -> option nat.
Context {json : Type}.
Variable json_loads : list Byte.byte -> Exc json.

Definition download_fileobj (st : dl_state) (bucket key : string)
    : Exc (list Byte.byte) * dl_state :=
  let st' := mk_dl_state (fetches st ++ [(bucket, key)]) (fs st) in
  match store bucket key with
  | Some data => (Ok data, st')
  | None => (Raise NoSuchKey, st')
  end.

(** [os.makedirs(p, exist_ok=True)]; [os.makedirs('')] raises
    [FileNotFoundError]. *)
Definition os_makedirs (p : string) (f : fsys) : Exc fsys :=
  if String.eqb p "" then Raise FileNotFoundError
  else if denied p then Raise PermissionError
  else Ok (mk_fsys (p :: fs_dirs f) (fs_files f)).

(** [with open(path, 'wb') as f: f.write(data)]: [open] creates or
    truncates the file before anything is written, so a failing
    [write]/[close] leaves the file with a prefix of [data] (possibly
    empty). *)
Definition write_file (path : string) (data : list Byte.byte) (f : fsys)
    : Exc unit * fsys :=
  if denied path then (Raise PermissionError, f)
  else match write_fault path with
       | Some n =>
           (Raise OSError, mk_fsys (fs_dirs f) (dict_set path (firstn n data) (fs_files f)))
       | None => (Ok tt, mk_fsys (fs_dirs f) (dict_set path data (fs_files f)))
       end.

Definition with_fs (st : dl_state) (f : fsys) : dl_state :=
  mk_dl_state (fetches st) f.

(** The [try] block of [download_by_key]; [output_dir = None] is Python's
    [None]. *)
Definition download_by_key_body (st : dl_state) (bucket key : string)
    (output_format : string) (output_dir : option string)
    : Exc (string * payload json) * dl_state :=
  match download_fileobj st bucket key with
  | (Raise e, st1) => (Raise e, st1)
  | (Ok data, st1) =>
      if String.eqb output_format "dict" then
        match json_loads data with
        | Ok j => (Ok (key, PDict j), st1)
        | Raise e => (Raise e, st1)
        end
      else if String.eqb output_format "bytes" then
        match output_dir with
        | Some d =>
            match os_makedirs (os_path_join d (os_path_dirname key)) (fs st1) with
            | Raise e => (Raise e, st1)
            | Ok f1 =>
                match write_file (os_path_join d key) data f1 with
                | (Raise e, f2) => (Raise e, with_fs st1 f2)
                | (Ok _, f2) => (Ok (key, PBytes data), with_fs st1 f2)
                end
            end
        | None => (Ok (key, PBytes data), st1)
        end
      else (Raise ValueError, st1)
  end.

(** [download_by_key]: [except Exception as err: print(err); return],
    so every exception of the body becomes [None]. *)
Definition download_by_key (st : dl_state) (bucket key : string)
    (output_format : string) (output_dir : option string)
    : option (string * payload json) * dl_state :=
  let '(r, st') := download_by_key_body st bucket key output_format output_dir in
  match r with
  | Ok kv => (Some kv, st')
  | Raise _ => (None, st')
  end.

(** The default of [output_dir: str | None = ''] (and of the CLI's [-d]). *)
Definition default_output_dir : option string := Some "".

(** [data.update(job.result())]: [job.result()] is [{key: value}] or
    [None], and [dict.update(None)] raises [TypeError]. *)
Definition merge_update (data : list (string * payload json))
    (r : option (string * payload json)) : Exc (list (string * payload json)) :=
  match r with
  | Some (k, v) => Ok (dict_set k v data)
  | None => Raise TypeError
  end.

Definition download_by_keys (rt : runtime) (bucket : string)
    (keys : list string) (output_format : string) (output_dir : option string)
    (st : dl_state)
    : Exc (option (list (string * payload json))) * dl_state * list event :=
  fan_out (fun key st => download_by_key st bucket key output_format output_dir)
    merge_update [] rt keys st.

(** [download_by_prefixes]: [keys = list_keys_by_prefixes(...)] then
    [download_by_keys(keys=keys, ...)]; each call has its own runtime.
    When the listing returned [None] (no prefixes), [len(None)] raises
    [TypeError] in [download_by_keys] before any client is created. *)
Definition download_by_prefixes (listing : string -> list page)
    (rt_list rt_dl : runtime) (bucket : string) (prefixes : list string)
    (output_format : string) (output_dir : option string)
    (log : list request) (st : dl_state)
    : Exc (option (list (string * payload json))) * list request * dl_state
      * list event :=
  let '(rk, log', ev1) := list_keys_by_prefixes listing rt_list bucket prefixes log in
  match rk with
  | Raise e => (Raise e, log', st, ev1)
  | Ok None => (Raise TypeError, log', st, ev1)
  | Ok (Some keys) =>
      let '(rd, st', ev2) :=
        download_by_keys rt_dl bucket keys output_format output_dir st in
      (rd, log', st', ev1 ++ ev2)
  end.

End Download.

(** ** The command line ([main.py])

    The namespace [argparse] hands to [main]: [func] is the sub-command
    ([None] without one), [prefixes] and [keys] are [None] when the option
    is not given, [output_dir] is [-d] with its default [''].  The pages
    and objects of the service, the filesystem and the two pools' runtimes
    (listing, then download) are those of the library calls. *)
Record cli_args := mk_cli_args {
  arg_func : option string;
  arg_bucket : string;
  arg_prefixes : option (list string);
  arg_keys : option (list string);
  arg_output_dir : string
}.

(** [args.func == name] *)
Definition func_is (f : option string) (name : string) : bool :=
  match f with
  | Some s => String.eqb s name
  | None => false
  end.

Section Main.

Variable store : string -> string -> option (list Byte.byte).
Variable denied : string -> bool.
Variable write_fault : string -> option nat.
Context {json : Type}.
Variable json_loads : list Byte.byte -> Exc json.
Variable listing : string -> list page.

(** [main()] after [parser.parse_args()]: the result, the request log,
    the download state, the pool events and what [print] wrote. *)
Definition main (rt_list rt_dl : runtime) (args : cli_args)
    (log : list request) (st : dl_state)
    : Exc unit * list request * dl_state * list event * list (option (list string)) :=
  if func_is (arg_func args) "s3list" then
    match arg_prefixes args with
    | Some ps =>
        let '(r, log', ev) := list_keys_by_prefixes listing rt_list
                                (arg_bucket args) ps log in
        match r with
        | Ok keys => (Ok tt, log', st, ev, [keys])
        | Raise e => (Raise e, log', st, ev, [])
        end
    | None => (Raise TypeError, log, st, [], [])   (* len(None) *)
    end
  else if func_is (arg_func args) "s3download" then
    match arg_keys args with
    | Some (k :: ks) =>   (* [if args.keys:] *)
        let '(r, st', ev) := download_by_keys store denied write_fault json_loads rt_dl
                               (arg_bucket args) (k :: ks) "bytes"
                               (Some (arg_output_dir args)) st in
        match r with
        | Ok _ => (Ok tt, log, st', ev, [])
        | Raise e => (Raise e, log, st', ev, [])
        end
    | _ =>
        match arg_prefixes args with
        | Some (p :: ps) =>   (* [elif args.prefixes:] *)
            let '(r, log', st', ev) :=
              download_by_prefixes store denied write_fault json_loads listing rt_list rt_dl
                (arg_bucket args) (p :: ps) "bytes" (Some (arg_output_dir args))
                log st in
            match r with
            | Ok _ => (Ok tt, log', st', ev, [])
            | Raise e => (Raise e, log', st', ev, [])
            end
        | _ => (Raise ValueError, log, st, [], [])
        end
    end
  else (Raise ValueError, log, st, [], []).

End Main.

(** * Properties *)

(** ** Pagination *)

(** A page sequence P1..Pk (k >= 1) in which P1..P(k-1) carry a non-empty
    continuation token and Pk carries none. *)
Fixpoint chained (ps : list page) : Prop :=
  match ps with
  | [] => False
  | p :: ps' =>
      match ps' with
      | [] => next_token p = None
      | _ => (exists t, next_token p = Some t /\ t <> "") /\ chained ps'
      end
  end.

(** The tokens of P1..P(k-1). *)
Fixpoint page_tokens (ps : list page) : list (option string) :=
  match ps with
  | [] => []
  | p :: ps' =>
      match ps' with
      | [] => []
      | _ => next_token p :: page_tokens ps'
      end
  end.

(** Pages for the concrete runs below. *)
Definition pg (items : list string) (tok : option string) : page :=
  mk_page items items tok.

(** The results of the jobs [items] in the completion order [sched], for a
    worker whose result [f a] does not depend on the shared state. *)
Definition completed {A R} (f : A -> R) (items : list A) (sched : list nat)
    : list R :=
  flat_map (fun i => match nth_error items i with
                     | Some a => [f a]
                     | None => []
                     end) sched.

(** The client discipline of a fan-out over [n] items, read off its
    result [r] and its trace [ev]: when [create_s3_client()] raises, the
    call raises that error and nothing else happens; otherwise exactly one
    client is created, the pool is built, every submitted job finishes,
    and the client is closed once, as the last event. *)
Definition scoped_client {X} (rt : runtime) (n : nat) (r : Exc X)
    (ev : list event) : Prop :=
  match rt_create rt with
  | Raise e => r = Raise e /\ ev = []
  | Ok _ =>
      exists units,
        ev = ClientCreated :: PoolCreated (Nat.min max_workers n)
               :: map UnitDone units ++ [ClientClosed]
        /\ Permutation units (seq 0 (submitted (rt_fault rt) n))
  end.

Lemma truthy_nonempty (t : string) : t <> "" -> truthy (Some t) = Some t.
Proof.
  intros Ht. unfold truthy.
  destruct (String.eqb_spec t ""); [contradiction | reflexivity].
Qed.

Lemma page_tokens_length (ps : list page) :
  ps <> [] -> List.length (page_tokens ps) = List.length ps - 1.
Proof.
  induction ps as [|p ps IH]; intros Hne; [congruence|].
  destruct ps as [|p' ps'].
  - reflexivity.
  - change (S (List.length (page_tokens (p' :: ps')))
            = List.length (p' :: ps')).
    rewrite IH by discriminate. simpl. lia.
Qed.

Section PaginatorProofs.

Variable delimiter : option string.
Variable select : page -> list string.
Variables bucket prefix : string.

Let req := listing_request delimiter bucket prefix.

Lemma drain_loop_chained (pages : list page) :
  forall log resp acc,
    chained (resp :: pages) ->
    drain_loop delimiter select bucket prefix pages log resp acc
    = (Ok (acc ++ List.concat (map select pages)),
       mk_client [] (log ++ map req (page_tokens (resp :: pages)))).
Proof.
  induction pages as [|p rest IH]; intros log resp acc Hch.
  - simpl in Hch. simpl. rewrite Hch. simpl.
    rewrite !app_nil_r. reflexivity.
  - destruct Hch as [[t [Ht Hne]] Hch].
    simpl. rewrite Ht, (truthy_nonempty t Hne). fold req.
    rewrite (IH (log ++ [req (Some t)]) p (acc ++ select p) Hch).
    rewrite <- !app_assoc. reflexivity.
Qed.

Lemma drain_listing_chained (pages : list page) (log0 : list request) :
  chained pages ->
  drain_listing delimiter select bucket prefix (mk_client pages log0)
  = (List.concat (map select pages),
     mk_client [] (log0 ++ map req (None :: page_tokens pages))).
Proof.
  intros Hch. destruct pages as [|p rest]; [contradiction|].
  unfold drain_listing. simpl.
  fold req.
  rewrite (drain_loop_chained rest (log0 ++ [req None]) p (select p) Hch).
  rewrite <- app_assoc. reflexivity.
Qed.

End PaginatorProofs.

(** Claim C2, as stated, fails: a token that is the empty string is falsy
    and ends the [while] loop, so the second page is never requested. *)
Lemma C2_empty_token_stops_paging :
  let pages := [pg ["a"] (Some ""); pg ["b"] None] in
  fst (list_keys_by_prefix (mk_client pages []) "bk" "p/")
  <> List.concat (map contents pages).
Proof. vm_compute. discriminate. Qed.

(** Claim C2 (amended): for a listing that answers pages P1..Pk, where
    P1..P(k-1) carry a non-empty continuation token and Pk none, both
    [list_keys_by_prefix] and [list_prefixes_by_prefix] return the items
    of all k pages concatenated in page order and issue exactly k
    [list_objects_v2] calls: the first without a token, call N+1 with the
    token of page N. *)
Theorem C2_drain_all_pages (pages : list page) (log0 : list request)
    (bucket prefix : string) :
  chained pages ->
  list_keys_by_prefix (mk_client pages log0) bucket prefix
    = (List.concat (map contents pages),
       mk_client [] (log0 ++ map (listing_request None bucket prefix)
                                 (None :: page_tokens pages)))
  /\ list_prefixes_by_prefix (mk_client pages log0) bucket prefix
    = (List.concat (map common_prefixes pages),
       mk_client [] (log0 ++ map (listing_request (Some "/") bucket prefix)
                                 (None :: page_tokens pages)))
  /\ List.length (None :: page_tokens pages) = List.length pages.
Proof.
  intros Hch. split; [|split].
  - apply drain_listing_chained; exact Hch.
  - apply drain_listing_chained; exact Hch.
  - assert (Hne : pages <> []) by (destruct pages; [contradiction | discriminate]).
    simpl. rewrite (page_tokens_length pages Hne).
    destruct pages; [congruence | simpl; lia].
Qed.

Lemma C2_drain_all_pages_witness :
  chained [pg ["a"] (Some "t1"); pg ["b"] (Some "t2"); pg ["c"] None]
  /\ list_keys_by_prefix
       (mk_client [pg ["a"] (Some "t1"); pg ["b"] (Some "t2"); pg ["c"] None] [])
       "bk" "p/"
     = (["a"; "b"; "c"],
        mk_client [] (map (listing_request None "bk" "p/")
                          [None; Some "t1"; Some "t2"])).
Proof.
  assert (H : chained [pg ["a"] (Some "t1"); pg ["b"] (Some "t2"); pg ["c"] None]).
  { simpl. split; [exists "t1"; split; [reflexivity | discriminate]|].
    split; [exists "t2"; split; [reflexivity | discriminate]|]. reflexivity. }
  split; [exact H|].
  exact (proj1 (C2_drain_all_pages _ [] "bk" "p/" H)).
Defined.

(** ** Generic facts on lists *)

Lemma filter_perm {X} (f : X -> bool) (l l' : list X) :
  Permutation l l' -> Permutation (filter f l) (filter f l').
Proof.
  induction 1 as [|x l l' _ IH|x y l|l l' l'' _ IH1 _ IH2]; simpl.
  - constructor.
  - destruct (f x); [constructor|]; exact IH.
  - destruct (f x), (f y); try constructor; apply Permutation_refl.
  - eapply Permutation_trans; eassumption.
Qed.

Lemma filter_all_true {X} (f : X -> bool) (l : list X) :
  (forall x, In x l -> f x = true) -> filter f l = l.
Proof.
  induction l as [|x l IH]; intros H; simpl; [reflexivity|].
  rewrite (H x (or_introl eq_refl)), IH; [reflexivity|].
  intros y Hy; apply H; right; exact Hy.
Qed.

Lemma filter_all_false {X} (f : X -> bool) (l : list X) :
  (forall x, In x l -> f x = false) -> filter f l = [].
Proof.
  induction l as [|x l IH]; intros H; simpl; [reflexivity|].
  rewrite (H x (or_introl eq_refl)), IH; [reflexivity|].
  intros y Hy; apply H; right; exact Hy.
Qed.

Lemma filter_lt_seq (m n : nat) :
  m <= n -> filter (fun i => Nat.ltb i m) (seq 0 n) = seq 0 m.
Proof.
  intros Hle. replace n with (m + (n - m)) by lia.
  rewrite seq_app, filter_app.
  rewrite filter_all_true, filter_all_false; [apply app_nil_r| |].
  - intros x Hx. apply in_seq in Hx. apply Nat.ltb_ge. lia.
  - intros x Hx. apply in_seq in Hx. apply Nat.ltb_lt. lia.
Qed.

Lemma flat_map_map {X Y Z} (g : Y -> list Z) (h : X -> Y) (l : list X) :
  flat_map g (map h l) = flat_map (fun x => g (h x)) l.
Proof. induction l as [|x l IH]; simpl; [reflexivity|]. rewrite IH; reflexivity. Qed.

Lemma completed_seq {A R} (f : A -> R) (items : list A) :
  completed f items (seq 0 (List.length items)) = map f items.
Proof.
  unfold completed.
  induction items as [|a items IH]; [reflexivity|].
  change (seq 0 (List.length (a :: items)))
    with (0 :: seq 1 (List.length items)).
  rewrite <- seq_shift. cbn [flat_map]. rewrite flat_map_map. simpl. rewrite IH. reflexivity.
Qed.

Lemma completed_perm {A R} (f : A -> R) (items : list A) (sched : list nat) :
  Permutation sched (seq 0 (List.length items)) ->
  Permutation (completed f items sched) (map f items).
Proof.
  intros Hp. rewrite <- completed_seq. unfold completed.
  apply Permutation_flat_map. exact Hp.
Qed.

Lemma concat_perm {X} (xs ys : list (list X)) :
  Permutation xs ys -> Permutation (List.concat xs) (List.concat ys).
Proof.
  intros Hp. rewrite <- (map_id xs), <- (map_id ys), <- !flat_map_concat_map.
  apply Permutation_flat_map. exact Hp.
Qed.

Lemma submitted_le (fault : option nat) (n : nat) : submitted fault n <= n.
Proof. destruct fault; simpl; lia. Qed.

Lemma sched_bound {A} (items : list A) (sched : list nat) :
  Permutation sched (seq 0 (List.length items)) ->
  forall i, In i sched -> i < List.length items.
Proof.
  intros Hp i Hi. apply (Permutation_in _ Hp), in_seq in Hi. lia.
Qed.

(** ** The fan-out *)

Section FanOutProofs.

Context {A R Acc S : Type}.
Variable worker : A -> S -> R * S.
Variable merge : Acc -> R -> Exc Acc.
Variable init : Acc.

Lemma run_units_events (items : list A) (sched : list nat) (s : S) :
  (forall i, In i sched -> i < List.length items) ->
  snd (run_units worker items sched s) = map UnitDone sched.
Proof.
  revert s. induction sched as [|i sched IH]; intros s Hb; simpl; [reflexivity|].
  destruct (nth_error items i) as [a|] eqn:Ei.
  - destruct (worker a s) as [r s1].
    specialize (IH s1 (fun j Hj => Hb j (or_intror Hj))).
    destruct (run_units worker items sched s1) as [[rs s2] ev].
    simpl in *. rewrite IH. reflexivity.
  - apply nth_error_None in Ei. specialize (Hb i (or_introl eq_refl)). lia.
Qed.

Lemma run_units_results (f : A -> R) (items : list A) (sched : list nat) :
  (forall a s, fst (worker a s) = f a) ->
  forall s, fst (fst (run_units worker items sched s)) = completed f items sched.
Proof.
  intros Hf. induction sched as [|i sched IH]; intros s; simpl; [reflexivity|].
  destruct (nth_error items i) as [a|] eqn:Ei.
  - specialize (Hf a s). destruct (worker a s) as [r s1]. simpl in Hf.
    specialize (IH s1).
    destruct (run_units worker items sched s1) as [[rs s2] ev].
    simpl in *. rewrite IH, Hf. unfold completed; simpl; rewrite ?Ei; reflexivity.
  - rewrite IH. unfold completed; simpl; rewrite ?Ei; reflexivity.
Qed.

(** Every job of the schedule contributes its result. *)
Lemma run_units_in (items : list A) (i : nat) (a : A) (r0 : R) :
  nth_error items i = Some a ->
  (forall s, fst (worker a s) = r0) ->
  forall sched s, In i sched -> In r0 (fst (fst (run_units worker items sched s))).
Proof.
  intros Ei Hr. induction sched as [|j sched IH]; intros s Hin; [destruct Hin|].
  simpl. destruct (nth_error items j) as [b|] eqn:Ej.
  - specialize (Hr s). destruct (worker b s) as [r s1] eqn:Ew.
    specialize (IH s1).
    destruct (run_units worker items sched s1) as [[rs s2] ev] eqn:Er.
    simpl in *. destruct Hin as [<- | Hin].
    + left. rewrite Ei in Ej. injection Ej as <-. rewrite Ew in Hr. exact Hr.
    + right. exact (IH Hin).
  - destruct Hin as [<- | Hin]; [congruence|]. exact (IH s Hin).
Qed.

Lemma fan_out_empty (rt : runtime) (s : S) :
  fan_out worker merge init rt [] s = (Ok None, s, []).
Proof. reflexivity. Qed.

(** The trace of a fan-out over a non-empty input: a failed client
    creation raises before anything else; otherwise one client, one pool
    of [min max_workers (len items)] threads, every submitted job finished,
    and one [close] at the very end. *)
Lemma fan_out_trace (rt : runtime) (items : list A) (s : S) :
  items <> [] ->
  Permutation (rt_sched rt) (seq 0 (List.length items)) ->
  match rt_create rt with
  | Raise e => fan_out worker merge init rt items s = (Raise e, s, [])
  | Ok _ =>
      exists units,
        snd (fan_out worker merge init rt items s)
        = ClientCreated :: PoolCreated (Nat.min max_workers (List.length items))
            :: map UnitDone units ++ [ClientClosed]
        /\ Permutation units (seq 0 (submitted (rt_fault rt) (List.length items)))
  end.
Proof.
  intros Hne Hp. unfold fan_out.
  destruct items as [|a0 items0]; [congruence|].
  set (items := a0 :: items0) in *.
  replace (Nat.ltb 0 (List.length items)) with true by reflexivity.
  destruct (rt_create rt) as [u|e]; [|reflexivity].
  set (m := submitted (rt_fault rt) (List.length items)).
  set (sched' := filter (fun i => Nat.ltb i m) (rt_sched rt)).
  assert (Hm : m <= List.length items) by apply submitted_le.
  assert (Hb : forall i, In i sched' -> i < List.length items).
  { intros i Hi. apply filter_In in Hi. destruct Hi as [_ Hi].
    apply Nat.ltb_lt in Hi. lia. }
  pose proof (run_units_events items sched' s Hb) as Hev.
  destruct (run_units worker items sched' s) as [[rs s'] ev].
  exists sched'. simpl in Hev. subst ev. split; [reflexivity|].
  rewrite <- (filter_lt_seq m (List.length items) Hm).
  apply filter_perm. exact Hp.
Qed.

(** A fan-out that returns a value returns the fold of [merge] over the
    job results in completion order. *)
Lemma fan_out_returns (f : A -> R) (rt : runtime) (items : list A) (s : S)
    (acc : Acc) :
  (forall a s, fst (worker a s) = f a) ->
  Permutation (rt_sched rt) (seq 0 (List.length items)) ->
  fst (fst (fan_out worker merge init rt items s)) = Ok (Some acc) ->
  fan_in merge init (completed f items (rt_sched rt)) = Ok acc.
Proof.
  intros Hf Hp. unfold fan_out.
  destruct (Nat.ltb 0 (List.length items)); [|discriminate].
  destruct (rt_create rt) as [u|e]; [|discriminate].
  set (m := submitted (rt_fault rt) (List.length items)).
  pose proof (run_units_results f items
                (filter (fun i => Nat.ltb i m) (rt_sched rt)) Hf s) as Hr.
  destruct (run_units worker items (filter (fun i => Nat.ltb i m) (rt_sched rt)) s)
    as [[rs s'] ev].
  simpl in Hr |- *. subst rs.
  destruct (Nat.ltb m (List.length items)) eqn:Elt; [discriminate|].
  apply Nat.ltb_ge in Elt.
  rewrite filter_all_true.
  - destruct (fan_in merge init _) as [acc'|e]; intros H; [|discriminate].
    injection H as ->. reflexivity.
  - intros i Hi. apply Nat.ltb_lt.
    pose proof (sched_bound items _ Hp i Hi). lia.
Qed.

End FanOutProofs.

Section FanOutShape.

Context {A R Acc S : Type}.
Variable worker : A -> S -> R * S.
Variable merge : Acc -> R -> Exc Acc.
Variable init : Acc.

Lemma fan_out_pool (rt : runtime) (items : list A) (s : S) :
  items <> [] -> rt_create rt = Ok tt ->
  exists ev, snd (fan_out worker merge init rt items s)
             = ClientCreated :: PoolCreated (Nat.min max_workers (List.length items))
                 :: ev.
Proof.
  intros Hne Hc. unfold fan_out.
  destruct items as [|a0 items0]; [congruence|]. rewrite Hc.
  replace (Nat.ltb 0 (List.length (a0 :: items0))) with true by reflexivity.
  destruct (run_units worker (a0 :: items0) _ s) as [[rs s'] ev].
  eexists. reflexivity.
Qed.

Lemma fan_out_scoped (rt : runtime) (items : list A) (s : S) :
  items <> [] ->
  Permutation (rt_sched rt) (seq 0 (List.length items)) ->
  let '(r, _, ev) := fan_out worker merge init rt items s in
  scoped_client rt (List.length items) r ev.
Proof.
  intros Hne Hp. pose proof (fan_out_trace worker merge init rt items s Hne Hp) as H.
  unfold scoped_client.
  destruct (rt_create rt) as [u|e].
  - destruct (fan_out worker merge init rt items s) as [[r s'] ev]. exact H.
  - rewrite H. split; reflexivity.
Qed.

End FanOutShape.

Lemma fan_in_extend (acc : list string) (rs : list (list string)) :
  fan_in merge_extend acc rs = Ok (acc ++ List.concat rs).
Proof.
  revert acc. induction rs as [|r rs IH]; intros acc; simpl.
  - rewrite app_nil_r. reflexivity.
  - rewrite IH, app_assoc. reflexivity.
Qed.

(** ** Listing workers do not depend on the shared request log *)

Lemma drain_loop_log_indep d sel b p (pages : list page) :
  forall log log' resp acc,
    fst (drain_loop d sel b p pages log resp acc)
    = fst (drain_loop d sel b p pages log' resp acc).
Proof.
  induction pages as [|pg0 rest IH]; intros log log' resp acc; simpl;
    destruct (truthy (next_token resp)); try reflexivity.
  apply IH.
Qed.

Lemma drain_listing_log_indep d sel b p (pages : list page) (log : list request) :
  fst (drain_listing d sel b p (mk_client pages log))
  = fst (drain_listing d sel b p (mk_client pages [])).
Proof.
  unfold drain_listing, list_objects_v2. cbn [script requests].
  destruct pages as [|p0 rest]; [reflexivity|]. cbn [script requests app].
  pose proof (drain_loop_log_indep d sel b p rest
                (log ++ [listing_request d b p None]) [listing_request d b p None]
                p0 (sel p0)) as H.
  destruct (drain_loop d sel b p rest (log ++ _) p0 (sel p0)) as [r1 c1].
  destruct (drain_loop d sel b p rest [_] p0 (sel p0)) as [r2 c2].
  simpl in H. subst r2. destruct r1; reflexivity.
Qed.

Lemma list_worker_result drain_d drain_sel listing bucket prefix log :
  fst (list_worker (fun c b p => drain_listing drain_d drain_sel b p c)
         listing bucket prefix log)
  = fst (drain_listing drain_d drain_sel bucket prefix (mk_client (listing prefix) [])).
Proof.
  unfold list_worker.
  rewrite <- (drain_listing_log_indep drain_d drain_sel bucket prefix (listing prefix) log).
  destruct (drain_listing _ _ _ _ _) as [items c']. reflexivity.
Qed.

(** ** Claims on the fan-out *)

(** Claim C4, as stated, fails: two runs over the same prefixes and the
    same per-prefix listings, whose workers complete in different orders,
    return the keys in different orders. *)
Lemma C4_order_depends_on_completion :
  let listing := fun p => if String.eqb p "x" then [pg ["a"] None]
                          else [pg ["b"] None] in
  fst (fst (list_keys_by_prefixes listing (mk_runtime (Ok tt) None [0; 1])
              "bk" ["x"; "y"] []))
  <> fst (fst (list_keys_by_prefixes listing (mk_runtime (Ok tt) None [1; 0])
                 "bk" ["x"; "y"] [])).
Proof. vm_compute. discriminate. Qed.

(** Claim C4 (amended): when [list_keys_by_prefixes] returns a list, that
    list is the per-prefix key lists concatenated in the order the workers
    completed, hence always a permutation of their concatenation in input
    order: the multiset of keys is fixed, their order is not. *)
Theorem C4_keys_in_completion_order (listing : string -> list page)
    (rt : runtime) (bucket : string) (prefixes : list string)
    (log : list request) (keys : list string) :
  Permutation (rt_sched rt) (seq 0 (List.length prefixes)) ->
  fst (fst (list_keys_by_prefixes listing rt bucket prefixes log))
    = Ok (Some keys) ->
  keys = List.concat
           (completed (fun p => fst (list_keys_by_prefix
                                       (mk_client (listing p) []) bucket p))
              prefixes (rt_sched rt))
  /\ Permutation keys
       (List.concat (map (fun p => fst (list_keys_by_prefix
                                          (mk_client (listing p) []) bucket p))
                         prefixes)).
Proof.
  intros Hp Hr.
  set (f := fun p => fst (list_keys_by_prefix (mk_client (listing p) []) bucket p)).
  assert (Hf : forall a s,
             fst (list_worker list_keys_by_prefix listing bucket a s) = f a).
  { intros a s. apply (list_worker_result None contents). }
  pose proof (fan_out_returns _ merge_extend [] f rt prefixes log keys Hf Hp Hr)
    as Hin.
  rewrite fan_in_extend in Hin. injection Hin as Hk. simpl in Hk. subst keys.
  split; [reflexivity|].
  apply concat_perm, completed_perm. exact Hp.
Qed.

Lemma C4_keys_in_completion_order_witness :
  let listing := fun p => if String.eqb p "x" then [pg ["a"] None]
                          else [pg ["b"] None] in
  Permutation [1; 0] (seq 0 2)
  /\ fst (fst (list_keys_by_prefixes listing (mk_runtime (Ok tt) None [1; 0])
                 "bk" ["x"; "y"] [])) = Ok (Some ["b"; "a"])
  /\ Permutation ["b"; "a"] ["a"; "b"].
Proof.
  intros listing.
  assert (Hp : Permutation [1; 0] (seq 0 2)) by (simpl; apply perm_swap).
  assert (Hr : fst (fst (list_keys_by_prefixes listing
                           (mk_runtime (Ok tt) None [1; 0]) "bk" ["x"; "y"] []))
               = Ok (Some ["b"; "a"])) by (vm_compute; reflexivity).
  split; [exact Hp|]. split; [exact Hr|].
  exact (proj2 (C4_keys_in_completion_order listing
                  (mk_runtime (Ok tt) None [1; 0]) "bk" ["x"; "y"] [] _ Hp Hr)).
Defined.

(** Claim C5: for a non-empty input, [list_keys_by_prefixes],
    [list_prefixes_by_prefixes] and [download_by_keys] build their thread
    pool with [min(max_workers, len(items))] threads, [max_workers = 16],
    right after creating the client. *)
Theorem C5_pool_capacity (listing : string -> list page)
    (store : string -> string -> option (list Byte.byte))
    (denied : string -> bool) (write_fault : string -> option nat) {json : Type} (json_loads : list Byte.byte -> Exc json)
    (rt : runtime) (bucket : string) (items : list string) (log : list request)
    (output_format : string) (output_dir : option string) (st : dl_state) :
  items <> [] -> rt_create rt = Ok tt ->
  max_workers = 16
  /\ (exists ev, snd (list_keys_by_prefixes listing rt bucket items log)
       = ClientCreated :: PoolCreated (Nat.min max_workers (List.length items)) :: ev)
  /\ (exists ev, snd (list_prefixes_by_prefixes listing rt bucket items log)
       = ClientCreated :: PoolCreated (Nat.min max_workers (List.length items)) :: ev)
  /\ (exists ev, snd (download_by_keys store denied write_fault json_loads rt bucket items
                        output_format output_dir st)
       = ClientCreated :: PoolCreated (Nat.min max_workers (List.length items)) :: ev).
Proof.
  intros Hne Hc. split; [reflexivity|].
  split; [|split]; apply fan_out_pool; assumption.
Qed.

Lemma C5_pool_capacity_witness :
  ["k1"; "k2"; "k3"] <> [] /\ rt_create (mk_runtime (Ok tt) None [0; 1; 2]) = Ok tt
  /\ exists ev,
       snd (download_by_keys (fun _ _ => Some []) (fun _ => false)
              (fun _ => None) (fun b => Ok b) (mk_runtime (Ok tt) None [0; 1; 2]) "bk"
              ["k1"; "k2"; "k3"] "bytes" None (mk_dl_state [] (mk_fsys [] [])))
       = ClientCreated :: PoolCreated 3 :: ev.
Proof.
  assert (Hne : ["k1"; "k2"; "k3"] <> []) by discriminate.
  assert (Hc : rt_create (mk_runtime (Ok tt) None [0; 1; 2]) = Ok tt) by reflexivity.
  split; [exact Hne|]. split; [exact Hc|].
  exact (proj2 (proj2 (proj2
           (C5_pool_capacity (fun _ => []) (fun _ _ => Some []) (fun _ => false)
              (fun _ => None) (fun b => Ok b) (mk_runtime (Ok tt) None [0; 1; 2]) "bk"
              ["k1"; "k2"; "k3"] [] "bytes" None (mk_dl_state [] (mk_fsys [] []))
              Hne Hc)))).
Defined.

(** Claim C6: for a non-empty input and any completion order, the three
    batch calls follow [scoped_client]: if [create_s3_client()] raises, the
    call raises it and no client exists; otherwise exactly one client is
    created before the pool, every submitted job (all of them, or those
    before a failing [executor.submit]) finishes, and the client is closed
    exactly once, as the last event, whether the call returns or raises. *)
Theorem C6_client_closed_once (listing : string -> list page)
    (store : string -> string -> option (list Byte.byte))
    (denied : string -> bool) (write_fault : string -> option nat) {json : Type} (json_loads : list Byte.byte -> Exc json)
    (rt : runtime) (bucket : string) (items : list string) (log : list request)
    (output_format : string) (output_dir : option string) (st : dl_state) :
  items <> [] ->
  Permutation (rt_sched rt) (seq 0 (List.length items)) ->
  (let '(r, _, ev) := list_keys_by_prefixes listing rt bucket items log in
   scoped_client rt (List.length items) r ev)
  /\ (let '(r, _, ev) := list_prefixes_by_prefixes listing rt bucket items log in
      scoped_client rt (List.length items) r ev)
  /\ (let '(r, _, ev) := download_by_keys store denied write_fault json_loads rt bucket items
                           output_format output_dir st in
      scoped_client rt (List.length items) r ev).
Proof.
  intros Hne Hp. split; [|split]; apply fan_out_scoped; assumption.
Qed.

Lemma C6_client_closed_once_witness :
  ["k1"; "k2"] <> [] /\ Permutation [1; 0] (seq 0 2)
  /\ snd (download_by_keys (fun _ k => if String.eqb k "k1" then None else Some [])
            (fun _ => false) (fun _ => None) (fun b => Ok b) (mk_runtime (Ok tt) None [1; 0]) "bk"
            ["k1"; "k2"] "bytes" None (mk_dl_state [] (mk_fsys [] [])))
     = [ClientCreated; PoolCreated 2; UnitDone 1; UnitDone 0; ClientClosed]
  /\ (let '(r, _, ev) :=
        download_by_keys (fun _ k => if String.eqb k "k1" then None else Some [])
          (fun _ => false) (fun _ => None) (fun b => Ok b) (mk_runtime (Ok tt) None [1; 0]) "bk"
          ["k1"; "k2"] "bytes" None (mk_dl_state [] (mk_fsys [] [])) in
      scoped_client (mk_runtime (Ok tt) None [1; 0]) 2 r ev).
Proof.
  assert (Hne : ["k1"; "k2"] <> []) by discriminate.
  assert (Hp : Permutation [1; 0] (seq 0 2)) by (simpl; apply perm_swap).
  split; [exact Hne|]. split; [exact Hp|]. split; [vm_compute; reflexivity|].
  exact (proj2 (proj2
           (C6_client_closed_once (fun _ => [])
              (fun _ k => if String.eqb k "k1" then None else Some [])
              (fun _ => false) (fun _ => None) (fun b => Ok b) (mk_runtime (Ok tt) None [1; 0]) "bk"
              ["k1"; "k2"] [] "bytes" None (mk_dl_state [] (mk_fsys [] []))
              Hne Hp))).
Defined.

(** Claim C10: on an empty input the three batch calls return [None]
    (not an empty list or mapping), create no client, run no job and leave
    the request log, the fetch log and the filesystem unchanged. *)
Theorem C10_empty_input_returns_None (listing : string -> list page)
    (store : string -> string -> option (list Byte.byte))
    (denied : string -> bool) (write_fault : string -> option nat) {json : Type} (json_loads : list Byte.byte -> Exc json)
    (rt : runtime) (bucket : string) (log : list request)
    (output_format : string) (output_dir : option string) (st : dl_state) :
  list_keys_by_prefixes listing rt bucket [] log = (Ok None, log, [])
  /\ list_prefixes_by_prefixes listing rt bucket [] log = (Ok None, log, [])
  /\ download_by_keys store denied write_fault json_loads rt bucket [] output_format
       output_dir st = (Ok None, st, []).
Proof. split; [|split]; apply fan_out_empty. Qed.

(** ** Downloads *)

Lemma dict_get_set {V} (k : string) (v : V) (d : list (string * V)) :
  dict_get k (dict_set k v d) = Some v.
Proof.
  induction d as [|[k' v'] d IH]; simpl.
  - rewrite String.eqb_refl. reflexivity.
  - destruct (String.eqb_spec k k') as [->|Hne]; simpl.
    + rewrite String.eqb_refl. reflexivity.
    + destruct (String.eqb_spec k k'); [contradiction|]. exact IH.
Qed.

Section DownloadProofs.

Variable store : string -> string -> option (list Byte.byte).
Variable denied : string -> bool.
Variable write_fault : string -> option nat.
Context {json : Type}.
Variable json_loads : list Byte.byte -> Exc json.

Lemma download_by_key_missing (st : dl_state) (bucket key output_format : string)
    (output_dir : option string) :
  store bucket key = None ->
  fst (download_by_key store denied write_fault json_loads st bucket key output_format output_dir)
  = None.
Proof.
  intros Hs. unfold download_by_key, download_by_key_body, download_fileobj.
  rewrite Hs. reflexivity.
Qed.

Lemma fan_in_update_none (acc : list (string * payload json))
    (rs : list (option (string * payload json))) :
  In None rs -> fan_in merge_update acc rs = Raise TypeError.
Proof.
  revert acc. induction rs as [|r rs IH]; intros acc Hin; [destruct Hin|].
  simpl. destruct Hin as [Hr | Hin].
  - subst r. reflexivity.
  - destruct r as [[k v]|]; [|reflexivity]. apply IH. exact Hin.
Qed.

End DownloadProofs.

(** Claim C1 does not hold: a key whose fetch fails makes [download_by_key]
    return [None], and [data.update(None)] in [download_by_keys] raises
    [TypeError] to the caller, whatever the completion order. *)
Theorem C1_failed_key_raises_TypeError
    (store : string -> string -> option (list Byte.byte))
    (denied : string -> bool) (write_fault : string -> option nat) {json : Type} (json_loads : list Byte.byte -> Exc json)
    (rt : runtime) (bucket : string) (keys : list string)
    (output_format : string) (output_dir : option string) (st : dl_state)
    (k : string) :
  rt_create rt = Ok tt -> rt_fault rt = None ->
  Permutation (rt_sched rt) (seq 0 (List.length keys)) ->
  In k keys -> store bucket k = None ->
  fst (fst (download_by_keys store denied write_fault json_loads rt bucket keys
              output_format output_dir st)) = Raise TypeError.
Proof.
  intros Hc Hf Hp Hk Hs.
  destruct (In_nth_error keys k Hk) as [i Ei].
  assert (Hi : i < List.length keys) by (apply nth_error_Some; congruence).
  unfold download_by_keys, fan_out.
  replace (Nat.ltb 0 (List.length keys)) with true
    by (symmetry; apply Nat.ltb_lt; lia).
  rewrite Hc, Hf. simpl submitted. rewrite Nat.ltb_irrefl.
  set (worker := fun (key : string) (s : dl_state) =>
         download_by_key store denied write_fault json_loads s bucket key output_format output_dir).
  set (sched' := filter (fun j => Nat.ltb j (List.length keys)) (rt_sched rt)).
  assert (Hin : In i sched').
  { apply filter_In. split.
    - apply (Permutation_in _ (Permutation_sym Hp)), in_seq. lia.
    - apply Nat.ltb_lt. exact Hi. }
  pose proof (run_units_in worker keys i k None Ei
                (fun s => download_by_key_missing store denied write_fault json_loads s bucket k
                            output_format output_dir Hs) sched' st Hin) as Hr.
  destruct (run_units worker keys sched' st) as [[rs s'] ev].
  simpl in *. rewrite fan_in_update_none by exact Hr. reflexivity.
Qed.

(** The input of the spec's failure-isolation test: five keys, the fetch
    of the third one fails. *)
Lemma C1_failed_key_raises_TypeError_witness :
  fst (fst (download_by_keys
              (fun _ k => if String.eqb k "k3" then None else Some [Byte.x61])
              (fun _ => false) (fun _ => None) (fun b => Ok b)
              (mk_runtime (Ok tt) None [0; 1; 2; 3; 4]) "bk"
              ["k1"; "k2"; "k3"; "k4"; "k5"] "bytes" None
              (mk_dl_state [] (mk_fsys [] [])))) = Raise TypeError.
Proof.
  apply (C1_failed_key_raises_TypeError _ _ _ _ _ _ _ _ _ _ "k3").
  - reflexivity.
  - reflexivity.
  - simpl. apply Permutation_refl.
  - simpl. tauto.
  - reflexivity.
Defined.

(** Claim C3 does not hold: [download_by_key] raises [ValueError] for an
    unknown [output_format] inside its own [try], whose
    [except Exception] turns it into [None]; nothing reaches the caller. *)
Theorem C3_ValueError_caught
    (store : string -> string -> option (list Byte.byte))
    (denied : string -> bool) (write_fault : string -> option nat) {json : Type} (json_loads : list Byte.byte -> Exc json)
    (st : dl_state) (bucket key output_format : string)
    (output_dir : option string) (data : list Byte.byte) :
  output_format <> "dict" -> output_format <> "bytes" ->
  store bucket key = Some data ->
  fst (download_by_key_body store denied write_fault json_loads st bucket key output_format
         output_dir) = Raise ValueError
  /\ fst (download_by_key store denied write_fault json_loads st bucket key output_format
            output_dir) = None.
Proof.
  intros Hd Hb Hs.
  unfold download_by_key, download_by_key_body, download_fileobj. rewrite Hs.
  destruct (String.eqb_spec output_format "dict"); [contradiction|].
  destruct (String.eqb_spec output_format "bytes"); [contradiction|].
  split; reflexivity.
Qed.

Lemma C3_ValueError_caught_witness :
  fst (download_by_key (fun _ _ => Some [Byte.x7b; Byte.x7d]) (fun _ => false)
         (fun _ => None) (fun b => Ok b) (mk_dl_state [] (mk_fsys [] [])) "bk" "a.json" "json"
         default_output_dir) = None.
Proof.
  refine (proj2 (C3_ValueError_caught _ _ _ _ _ "bk" "a.json" "json" _
                   [Byte.x7b; Byte.x7d] _ _ _)).
  - discriminate.
  - discriminate.
  - reflexivity.
Defined.

(** Claim C7, as stated, fails: a caller that does not supply [output_dir]
    gets the default [''], which is not [None], so with
    [output_format='bytes'] the object is written (to [key] under the
    current directory). *)
Lemma C7_default_output_dir_writes :
  let st := mk_dl_state [] (mk_fsys [] []) in
  fs_files (fs (snd (download_by_key (fun _ _ => Some [Byte.x61]) (fun _ => false)
                       (fun _ => None) (fun b => Ok b) st "bk" "a/b.json" "bytes"
                       default_output_dir)))
  <> fs_files (fs st).
Proof. vm_compute. discriminate. Qed.

(** Claim C7 (amended): [download_by_key] changes the filesystem only when
    [output_format = 'bytes'], [output_dir] is not [None] and the fetch
    succeeded.  It can then add the directory
    [os.path.join(output_dir, dirname(key))], and the only file it can
    create or change is [os.path.join(output_dir, key)]: either that file
    receives the whole payload and the call returns it, or a [write]/[close]
    fails after [open] truncated the file, which is left with a prefix of
    the payload while the call returns [None].  Conversely, under these
    conditions, when [os.makedirs], [open] and the write succeed, the file
    is written.  The default [output_dir] is [''], not [None]: only an
    explicit [None] disables writing. *)
Theorem C7_disk_write_condition
    (store : string -> string -> option (list Byte.byte))
    (denied : string -> bool) (write_fault : string -> option nat) {json : Type}
    (json_loads : list Byte.byte -> Exc json)
    (st : dl_state) (bucket key output_format : string)
    (output_dir : option string) :
  default_output_dir <> None
  /\ let '(r, st') := download_by_key store denied write_fault json_loads st bucket
                        key output_format output_dir in
     (fs st' = fs st
      \/ exists d data,
           output_format = "bytes" /\ output_dir = Some d
           /\ store bucket key = Some data
           /\ (fs_dirs (fs st') = fs_dirs (fs st)
               \/ fs_dirs (fs st') = os_path_join d (os_path_dirname key) :: fs_dirs (fs st))
           /\ (fs_files (fs st') = fs_files (fs st)
               \/ (r = Some (key, PBytes data)
                   /\ fs_files (fs st')
                      = dict_set (os_path_join d key) data (fs_files (fs st)))
               \/ (r = None
                   /\ exists n, fs_files (fs st')
                                = dict_set (os_path_join d key) (firstn n data)
                                    (fs_files (fs st)))))
     /\ (forall d data,
           output_format = "bytes" -> output_dir = Some d ->
           store bucket key = Some data ->
           os_path_join d (os_path_dirname key) <> "" ->
           denied (os_path_join d (os_path_dirname key)) = false ->
           denied (os_path_join d key) = false ->
           write_fault (os_path_join d key) = None ->
           r = Some (key, PBytes data)
           /\ fs_files (fs st')
              = dict_set (os_path_join d key) data (fs_files (fs st))).
Proof.
  split; [discriminate|].
  unfold download_by_key, download_by_key_body, download_fileobj.
  destruct (store bucket key) as [data|] eqn:Hs.
  2:{ split; [left; reflexivity|]. intros d data' _ _ Hs'. congruence. }
  destruct (String.eqb_spec output_format "dict") as [Hd|Hd].
  { destruct (json_loads data); simpl;
      (split; [left; reflexivity|]); intros d data' Hb; rewrite Hd in Hb; discriminate. }
  destruct (String.eqb_spec output_format "bytes") as [Hb|Hb].
  2:{ simpl. split; [left; reflexivity|]. intros; contradiction. }
  destruct output_dir as [d|].
  2:{ simpl. split; [left; reflexivity|]. intros; discriminate. }
  unfold os_makedirs, write_file.
  destruct (String.eqb_spec (os_path_join d (os_path_dirname key)) "") as [He|He].
  { simpl. split; [left; reflexivity|]. intros d' data' _ Hd' _ Hne.
    injection Hd' as <-. contradiction. }
  destruct (denied (os_path_join d (os_path_dirname key))) eqn:Hden1.
  { simpl. split; [left; reflexivity|]. intros d' data' _ Hd' _ _ Hden.
    injection Hd' as <-. congruence. }
  destruct (denied (os_path_join d key)) eqn:Hden2; simpl.
  - split.
    + right. exists d, data.
      refine (conj Hb (conj eq_refl (conj eq_refl (conj (or_intror eq_refl) _)))).
      left. reflexivity.
    + intros d' data' _ Hd' _ _ _ Hden. injection Hd' as <-. congruence.
  - destruct (write_fault (os_path_join d key)) as [n|] eqn:Hw; simpl.
    + split.
      * right. exists d, data.
        refine (conj Hb (conj eq_refl (conj eq_refl (conj (or_intror eq_refl) _)))).
        right. right. split; [reflexivity|]. exists n. reflexivity.
      * intros d' data' _ Hd' _ _ _ _ Hw'. injection Hd' as <-. congruence.
    + split.
      * right. exists d, data.
        refine (conj Hb (conj eq_refl (conj eq_refl (conj (or_intror eq_refl) _)))).
        right. left. split; reflexivity.
      * intros d' data' _ Hd' Hs' _ _ _ _. injection Hd' as <-.
        injection Hs' as <-. split; reflexivity.
Qed.

Lemma C7_disk_write_condition_witness :
  let '(r, st') := download_by_key (fun _ _ => Some [Byte.x61]) (fun _ => false)
                     (fun _ => None) (fun b => Ok b) (mk_dl_state [] (mk_fsys [] []))
                     "bk" "a/b.json" "bytes" (Some "out") in
  r = Some ("a/b.json", PBytes [Byte.x61])
  /\ fs_files (fs st') = dict_set (os_path_join "out" "a/b.json") [Byte.x61] [].
Proof.
  pose proof (proj2 (C7_disk_write_condition (fun _ _ => Some [Byte.x61])
                       (fun _ => false) (fun _ => None) (fun b => Ok b)
                       (mk_dl_state [] (mk_fsys [] [])) "bk" "a/b.json" "bytes"
                       (Some "out"))) as H.
  vm_compute in H. destruct H as [_ H].
  specialize (H "out" [Byte.x61] eq_refl eq_refl eq_refl
                ltac:(discriminate) eq_refl eq_refl eq_refl).
  vm_compute. exact H.
Defined.

(** Claim C8, as stated, fails: when the disk fills after one byte of a
    two-byte payload, [open] has already created [out/a/b.bin], which is
    left holding that one byte, and the call returns [None]. *)
Lemma C8_partial_write_left :
  let '(r, st') := download_by_key (fun _ _ => Some [Byte.x61; Byte.x62])
                     (fun _ => false) (fun _ => Some 1) (fun b => Ok b)
                     (mk_dl_state [] (mk_fsys [] [])) "bk" "a/b.bin" "bytes"
                     (Some "out") in
  r = None
  /\ dict_get (os_path_join "out" "a/b.bin") (fs_files (fs st')) = Some [Byte.x61].
Proof. vm_compute. split; reflexivity. Qed.

(** Claim C8 (amended): when the fetch of [key] succeeds with payload
    [data], a [download_by_key] call with [output_format='bytes'] and an
    [output_dir] either returns [(key, data)] and has written exactly
    [data] to [os.path.join(output_dir, key)], or returns [None]; in that
    case no file was touched, or the write failed after [open] and that
    file holds a prefix of [data].  No other file changes. *)
Theorem C8_round_trip
    (store : string -> string -> option (list Byte.byte))
    (denied : string -> bool) (write_fault : string -> option nat) {json : Type}
    (json_loads : list Byte.byte -> Exc json)
    (st : dl_state) (bucket key d : string) (data : list Byte.byte) :
  store bucket key = Some data ->
  let '(r, st') := download_by_key store denied write_fault json_loads st bucket key
                     "bytes" (Some d) in
  (r = Some (key, PBytes data)
   /\ dict_get (os_path_join d key) (fs_files (fs st')) = Some data
   /\ fs_files (fs st') = dict_set (os_path_join d key) data (fs_files (fs st)))
  \/ (r = None
      /\ (fs_files (fs st') = fs_files (fs st)
          \/ exists n, fs_files (fs st')
                       = dict_set (os_path_join d key) (firstn n data) (fs_files (fs st)))).
Proof.
  intros Hs.
  unfold download_by_key, download_by_key_body, download_fileobj. rewrite Hs.
  simpl. unfold os_makedirs, write_file.
  destruct (String.eqb (os_path_join d (os_path_dirname key)) "");
    [right; split; [reflexivity | left; reflexivity]|].
  destruct (denied (os_path_join d (os_path_dirname key)));
    [right; split; [reflexivity | left; reflexivity]|].
  destruct (denied (os_path_join d key)); simpl.
  - right. split; [reflexivity | left; reflexivity].
  - destruct (write_fault (os_path_join d key)) as [n|]; simpl.
    + right. split; [reflexivity|]. right. exists n. reflexivity.
    + left. split; [reflexivity|]. split; [apply dict_get_set | reflexivity].
Qed.

Lemma C8_round_trip_witness :
  let '(r, st') := download_by_key (fun _ _ => Some [Byte.x61; Byte.x62])
                     (fun _ => false) (fun _ => None) (fun b => Ok b)
                     (mk_dl_state [] (mk_fsys [] [])) "bk" "a/b.bin" "bytes"
                     (Some "out") in
  (r = Some ("a/b.bin", PBytes [Byte.x61; Byte.x62])
   /\ dict_get (os_path_join "out" "a/b.bin") (fs_files (fs st'))
      = Some [Byte.x61; Byte.x62]
   /\ fs_files (fs st') = dict_set (os_path_join "out" "a/b.bin") [Byte.x61; Byte.x62] [])
  \/ (r = None
      /\ (fs_files (fs st') = []
          \/ exists n, fs_files (fs st')
                       = dict_set (os_path_join "out" "a/b.bin")
                           (firstn n [Byte.x61; Byte.x62]) [])).
Proof.
  exact (C8_round_trip (fun _ _ => Some [Byte.x61; Byte.x62]) (fun _ => false)
           (fun _ => None) (fun b => Ok b) (mk_dl_state [] (mk_fsys [] [])) "bk"
           "a/b.bin" "out" [Byte.x61; Byte.x62] eq_refl).
Defined.

(** ** Composition *)

(** Claim C9 does not hold: [download_by_prefixes] over ["a/"; "b/"],
    listed as ["a/1"; "a/2"] and ["a/1"; "b/1"] (a duplicated key), where
    the fetch of "a/2" fails, raises [TypeError] (the [data.update(None)]
    of [download_by_keys]) instead of returning the mapping of the
    distinct keys "a/1" and "b/1". *)
Theorem C9_duplicate_keys_failed_fetch_raises :
  let listing := fun p => if String.eqb p "a/" then [pg ["a/1"; "a/2"] None]
                          else [pg ["a/1"; "b/1"] None] in
  let store := fun (_ k : string) =>
                 if String.eqb k "a/2" then None else Some [Byte.x61] in
  let '(r, _, _, _) :=
    download_by_prefixes store (fun _ => false) (fun _ => None) (fun b => Ok b) listing
      (mk_runtime (Ok tt) None [0; 1]) (mk_runtime (Ok tt) None [0; 1; 2; 3])
      "bk" ["a/"; "b/"] "bytes" None [] (mk_dl_state [] (mk_fsys [] [])) in
  r = Raise TypeError.
Proof. vm_compute. reflexivity. Qed.

(** With every fetch succeeding, the same run returns one entry per
    distinct key, each fetched once per occurrence. *)
Lemma download_by_prefixes_duplicates_collapse :
  let listing := fun p => if String.eqb p "a/" then [pg ["a/1"; "a/2"] None]
                          else [pg ["a/1"; "b/1"] None] in
  let '(r, _, st', _) :=
    download_by_prefixes (fun _ _ => Some [Byte.x61]) (fun _ => false)
      (fun _ => None) (fun b => Ok b) listing
      (mk_runtime (Ok tt) None [0; 1]) (mk_runtime (Ok tt) None [0; 1; 2; 3])
      "bk" ["a/"; "b/"] "bytes" None [] (mk_dl_state [] (mk_fsys [] [])) in
  r = Ok (Some [("a/1", PBytes [Byte.x61]); ("a/2", PBytes [Byte.x61]);
                ("b/1", PBytes [Byte.x61])])
  /\ fetches st' = [("bk", "a/1"); ("bk", "a/2"); ("bk", "a/1"); ("bk", "b/1")].
Proof. vm_compute. split; reflexivity. Qed.

(** * Further properties of the code *)

(** ** The fan-out, when every job is submitted *)

Section FanOutFull.

Context {A R Acc S : Type}.
Variable worker : A -> S -> R * S.
Variable merge : Acc -> R -> Exc Acc.
Variable init : Acc.

Lemma fan_out_full_result (f : A -> R) (rt : runtime) (items : list A) (s : S) :
  (forall a s, fst (worker a s) = f a) ->
  items <> [] -> rt_create rt = Ok tt -> rt_fault rt = None ->
  Permutation (rt_sched rt) (seq 0 (List.length items)) ->
  fst (fst (fan_out worker merge init rt items s))
  = match fan_in merge init (completed f items (rt_sched rt)) with
    | Ok acc => Ok (Some acc)
    | Raise e => Raise e
    end.
Proof.
  intros Hf Hne Hc Hfl Hp. unfold fan_out.
  destruct items as [|a0 items0]; [congruence|].
  replace (Nat.ltb 0 (List.length (a0 :: items0))) with true by reflexivity.
  rewrite Hc, Hfl. simpl submitted. rewrite Nat.ltb_irrefl.
  rewrite (filter_all_true _ (rt_sched rt)).
  2:{ intros i Hi. apply Nat.ltb_lt. exact (sched_bound _ _ Hp i Hi). }
  pose proof (run_units_results worker f (a0 :: items0) (rt_sched rt) Hf s) as Hr.
  destruct (run_units worker (a0 :: items0) (rt_sched rt) s) as [[rs s'] ev].
  simpl in Hr |- *. subst rs. reflexivity.
Qed.

(** The shared state after the jobs: each job appends its own entries to
    a log kept in the state. *)
Lemma run_units_log {X} (proj : S -> list X) (g : A -> list X)
    (items : list A) (sched : list nat) :
  (forall a s, proj (snd (worker a s)) = proj s ++ g a) ->
  forall s, proj (snd (fst (run_units worker items sched s)))
            = proj s ++ flat_map (fun i => match nth_error items i with
                                           | Some a => g a
                                           | None => []
                                           end) sched.
Proof.
  intros Hg. induction sched as [|i sched IH]; intros s; simpl.
  - rewrite app_nil_r. reflexivity.
  - destruct (nth_error items i) as [a|] eqn:Ei.
    + specialize (Hg a s). destruct (worker a s) as [r s1]. simpl in Hg.
      specialize (IH s1).
      destruct (run_units worker items sched s1) as [[rs s2] ev].
      simpl in *. rewrite IH, Hg, app_assoc. reflexivity.
    + exact (IH s).
Qed.

End FanOutFull.

Lemma flat_map_nth_seq {X Y} (g : X -> list Y) (items : list X) :
  flat_map (fun i => match nth_error items i with
                     | Some a => g a
                     | None => []
                     end) (seq 0 (List.length items))
  = flat_map g items.
Proof.
  induction items as [|a items IH]; [reflexivity|].
  change (seq 0 (List.length (a :: items)))
    with (0 :: seq 1 (List.length items)).
  rewrite <- seq_shift. cbn [flat_map]. rewrite flat_map_map. simpl.
  rewrite IH. reflexivity.
Qed.

Lemma completed_in {A R} (f : A -> R) (items : list A) (sched : list nat) (r : R) :
  In r (completed f items sched) -> exists a, In a items /\ r = f a.
Proof.
  unfold completed. intros H. apply in_flat_map in H.
  destruct H as [i [_ Hi]].
  destruct (nth_error items i) as [a|] eqn:Ei; [|destruct Hi].
  destruct Hi as [<- | []]. exists a. split; [|reflexivity].
  exact (nth_error_In _ _ Ei).
Qed.

(** ** Listing *)

Lemma drain_loop_all_tokens d sel b p (pages : list page) :
  forall log resp acc,
    (forall pg0, In pg0 (resp :: pages) ->
                 exists t, next_token pg0 = Some t /\ t <> "") ->
    fst (drain_loop d sel b p pages log resp acc) = Raise ClientError.
Proof.
  induction pages as [|p0 rest IH]; intros log resp acc Hall;
    destruct (Hall resp (or_introl eq_refl)) as [t [Ht Hne]];
    simpl; rewrite Ht, (truthy_nonempty t Hne); [reflexivity|].
  apply IH. intros pg0 Hin. apply Hall. right. exact Hin.
Qed.

(** When every page the service answers announces one more page, the
    request that follows the last page fails; [list_keys_by_prefix] and
    [list_prefixes_by_prefix] then return [[]]: the items of the pages
    already received are dropped with the error. *)
Theorem X1_listing_error_drops_received_pages (pages : list page)
    (log : list request) (bucket prefix : string) :
  (forall pg0, In pg0 pages -> exists t, next_token pg0 = Some t /\ t <> "") ->
  fst (list_keys_by_prefix (mk_client pages log) bucket prefix) = []
  /\ fst (list_prefixes_by_prefix (mk_client pages log) bucket prefix) = [].
Proof.
  intros Hall.
  assert (H : forall d sel,
             fst (drain_listing d sel bucket prefix (mk_client pages log)) = []).
  { intros d sel. unfold drain_listing, list_objects_v2. cbn [script requests].
    destruct pages as [|p0 rest]; [reflexivity|]. cbn [script requests].
    pose proof (drain_loop_all_tokens d sel bucket prefix rest
                  (log ++ [listing_request d bucket prefix None]) p0 (sel p0) Hall)
      as Hr.
    destruct (drain_loop d sel bucket prefix rest _ p0 (sel p0)) as [r c'].
    simpl in Hr. subst r. reflexivity. }
  split; apply H.
Qed.

Lemma X1_listing_error_drops_received_pages_witness :
  fst (list_keys_by_prefix (mk_client [pg ["a"; "b"] (Some "t1")] []) "bk" "p/")
  = [].
Proof.
  refine (proj1 (X1_listing_error_drops_received_pages _ [] "bk" "p/" _)).
  intros pg0 [<- | []]. exists "t1". split; [reflexivity | discriminate].
Defined.

(** [list_prefixes_by_prefixes] returns the sub-prefixes of each prefix
    concatenated in the order the workers complete, a permutation of
    their concatenation in input order. *)
Theorem X3_prefixes_in_completion_order (listing : string -> list page)
    (rt : runtime) (bucket : string) (prefixes : list string)
    (log : list request) (subs : list string) :
  Permutation (rt_sched rt) (seq 0 (List.length prefixes)) ->
  fst (fst (list_prefixes_by_prefixes listing rt bucket prefixes log))
    = Ok (Some subs) ->
  subs = List.concat
           (completed (fun p => fst (list_prefixes_by_prefix
                                       (mk_client (listing p) []) bucket p))
              prefixes (rt_sched rt))
  /\ Permutation subs
       (List.concat (map (fun p => fst (list_prefixes_by_prefix
                                          (mk_client (listing p) []) bucket p))
                         prefixes)).
Proof.
  intros Hp Hr.
  set (f := fun p => fst (list_prefixes_by_prefix (mk_client (listing p) []) bucket p)).
  assert (Hf : forall a s,
             fst (list_worker list_prefixes_by_prefix listing bucket a s) = f a).
  { intros a s. apply (list_worker_result (Some "/") common_prefixes). }
  pose proof (fan_out_returns _ merge_extend [] f rt prefixes log subs Hf Hp Hr)
    as Hin.
  rewrite fan_in_extend in Hin. injection Hin as Hk. simpl in Hk. subst subs.
  split; [reflexivity|].
  apply concat_perm, completed_perm. exact Hp.
Qed.

Lemma X3_prefixes_in_completion_order_witness :
  let listing := fun p => if String.eqb p "x/" then [pg ["x/a/"] None]
                          else [pg ["y/b/"] None] in
  Permutation ["y/b/"; "x/a/"] ["x/a/"; "y/b/"].
Proof.
  intros listing.
  assert (Hp : Permutation [1; 0] (seq 0 2)) by (simpl; apply perm_swap).
  assert (Hr : fst (fst (list_prefixes_by_prefixes listing
                           (mk_runtime (Ok tt) None [1; 0]) "bk" ["x/"; "y/"] []))
               = Ok (Some ["y/b/"; "x/a/"])) by (vm_compute; reflexivity).
  exact (proj2 (X3_prefixes_in_completion_order listing
                  (mk_runtime (Ok tt) None [1; 0]) "bk" ["x/"; "y/"] [] _ Hp Hr)).
Defined.

(** ** [download_by_key] *)

Lemma head_len_aux_ge (l : list ascii) : forall pos last,
  last <= pos -> last <= head_len_aux l pos last.
Proof.
  induction l as [|c l IH]; intros pos last Hle; simpl; [lia|].
  destruct (Ascii.eqb c slash).
  - specialize (IH (S pos) (S pos) (le_n _)). lia.
  - apply IH. lia.
Qed.

Lemma head_len_aux_no_slash (l : list ascii) : forall pos last,
  forallb (fun c => negb (Ascii.eqb c slash)) l = true ->
  head_len_aux l pos last = last.
Proof.
  induction l as [|c l IH]; intros pos last H; simpl; [reflexivity|].
  simpl in H. apply andb_prop in H. destruct H as [Hc H].
  destruct (Ascii.eqb c slash); [discriminate|]. apply IH. exact H.
Qed.

(** [os.path.dirname] of a name without '/' is [''].*)
Lemma dirname_no_slash (key : string) :
  forallb (fun c => negb (Ascii.eqb c slash)) (list_ascii_of_string key) = true ->
  os_path_dirname key = "".
Proof.
  intros H. unfold os_path_dirname.
  rewrite (head_len_aux_no_slash _ 0 0 H). reflexivity.
Qed.

Lemma rstrip_slash_snoc (x : list ascii) :
  rstrip_slash_rev (x ++ [slash]) = []
  \/ exists y, rstrip_slash_rev (x ++ [slash]) = y ++ [slash].
Proof.
  induction x as [|c x IH]; simpl.
  - left. reflexivity.
  - destruct (Ascii.eqb c slash); [exact IH|]. right. exists (c :: x). reflexivity.
Qed.

(** [os.path.dirname] of an absolute name is absolute. *)
Lemma dirname_absolute (key : string) :
  starts_with_slash key = true -> starts_with_slash (os_path_dirname key) = true.
Proof.
  destruct key as [|c rest]; [discriminate|]. simpl. intros Hc.
  apply Ascii.eqb_eq in Hc. subst c.
  unfold os_path_dirname. simpl list_ascii_of_string.
  set (l := list_ascii_of_string rest).
  change (head_len_aux (slash :: l) 0 0) with (head_len_aux l 1 1).
  pose proof (head_len_aux_ge l 1 1 (le_n 1)) as Hge.
  destruct (head_len_aux l 1 1) as [|n]; [lia|].
  simpl firstn. simpl rev.
  destruct (rstrip_slash_snoc (rev (firstn n l))) as [He | [y Hy]].
  - rewrite He. reflexivity.
  - rewrite Hy, rev_app_distr. reflexivity.
Qed.

Lemma join_absolute (d key : string) :
  starts_with_slash key = true -> os_path_join d key = key.
Proof. intros H. unfold os_path_join. rewrite H. reflexivity. Qed.

Section DownloadByKeyFacts.

Variable store : string -> string -> option (list Byte.byte).
Variable denied : string -> bool.
Variable write_fault : string -> option nat.
Context {json : Type}.
Variable json_loads : list Byte.byte -> Exc json.

Lemma download_by_key_fetch_log (st : dl_state) (bucket key output_format : string)
    (output_dir : option string) :
  fetches (snd (download_by_key store denied write_fault json_loads st bucket key
                  output_format output_dir))
  = fetches st ++ [(bucket, key)].
Proof.
  unfold download_by_key, download_by_key_body, download_fileobj.
  destruct (store bucket key) as [data|]; [|reflexivity].
  destruct (String.eqb output_format "dict").
  { destruct (json_loads data); reflexivity. }
  destruct (String.eqb output_format "bytes"); [|reflexivity].
  destruct output_dir as [d|]; [|reflexivity].
  unfold os_makedirs, write_file.
  destruct (String.eqb (os_path_join d (os_path_dirname key)) ""); [reflexivity|].
  destruct (denied (os_path_join d (os_path_dirname key))); [reflexivity|].
  destruct (denied (os_path_join d key)); [reflexivity|].
  destruct (write_fault (os_path_join d key)); reflexivity.
Qed.

Lemma download_by_key_top_level_none (st : dl_state) (bucket key : string) :
  forallb (fun c => negb (Ascii.eqb c slash)) (list_ascii_of_string key) = true ->
  fst (download_by_key store denied write_fault json_loads st bucket key "bytes" (Some ""))
  = None.
Proof.
  intros Hk. unfold download_by_key, download_by_key_body, download_fileobj.
  destruct (store bucket key) as [data|]; [|reflexivity].
  simpl. unfold os_makedirs. rewrite (dirname_no_slash key Hk). reflexivity.
Qed.

(** Every [download_by_key] call makes exactly one [download_fileobj]
    request, for its own [(bucket, key)], whatever happens next: there is
    no retry and no other remote call. *)
Theorem X5_one_fetch_per_call (st : dl_state) (bucket key output_format : string)
    (output_dir : option string) :
  fetches (snd (download_by_key store denied write_fault json_loads st bucket key
                  output_format output_dir))
  = fetches st ++ [(bucket, key)].
Proof. apply download_by_key_fetch_log. Qed.

(** With [output_format='dict'] the filesystem is never touched, whatever
    [output_dir] is; the call returns [{key: json.loads(data)}] when the
    fetch and the parse succeed, and [None] otherwise. *)
Theorem X4_dict_format_no_disk (st : dl_state) (bucket key : string)
    (output_dir : option string) :
  let '(r, st') := download_by_key store denied write_fault json_loads st bucket key
                     "dict" output_dir in
  fs st' = fs st
  /\ (r = None
      \/ exists data j, store bucket key = Some data /\ json_loads data = Ok j
                        /\ r = Some (key, PDict j))
  /\ (forall data j, store bucket key = Some data -> json_loads data = Ok j ->
                     r = Some (key, PDict j)).
Proof.
  unfold download_by_key, download_by_key_body, download_fileobj.
  destruct (store bucket key) as [data|] eqn:Hs.
  - simpl. destruct (json_loads data) as [j|e] eqn:Hj; simpl.
    + split; [reflexivity|]. split.
      * right. exists data, j. repeat split; assumption.
      * intros data' j' Hd Hj'. injection Hd as <-. congruence.
    + split; [reflexivity|]. split; [left; reflexivity|].
      intros data' j' Hd Hj'. injection Hd as <-. congruence.
  - simpl. split; [reflexivity|]. split; [left; reflexivity|].
    intros data' j' Hd. discriminate.
Qed.

(** With [output_format='bytes'] and [output_dir=''] (the default of the
    function and of the CLI's [-d]), a key without '/' is never saved and
    never returned: [os.makedirs(os.path.join('', ''))] raises and the
    call returns [None], even when the object exists. *)
Theorem X6_top_level_key_empty_dir_fails (st : dl_state) (bucket key : string) :
  forallb (fun c => negb (Ascii.eqb c slash)) (list_ascii_of_string key) = true ->
  let '(r, st') := download_by_key store denied write_fault json_loads st bucket key
                     "bytes" (Some "") in
  r = None /\ fs st' = fs st.
Proof.
  intros Hk. unfold download_by_key, download_by_key_body, download_fileobj.
  destruct (store bucket key) as [data|]; [|split; reflexivity].
  simpl. unfold os_makedirs. rewrite (dirname_no_slash key Hk). simpl.
  split; reflexivity.
Qed.

(** A key that starts with '/' escapes [output_dir]: [os.path.join]
    drops [output_dir], so when the OS permits the directory and the file
    and the write succeeds, the directories and the file are made at the
    key's own absolute path. *)
Theorem X7_absolute_key_ignores_output_dir (st : dl_state) (bucket key d : string)
    (data : list Byte.byte) :
  starts_with_slash key = true ->
  store bucket key = Some data ->
  denied (os_path_dirname key) = false -> denied key = false ->
  write_fault key = None ->
  let '(r, st') := download_by_key store denied write_fault json_loads st bucket key
                     "bytes" (Some d) in
  r = Some (key, PBytes data)
  /\ fs_dirs (fs st') = os_path_dirname key :: fs_dirs (fs st)
  /\ fs_files (fs st') = dict_set key data (fs_files (fs st)).
Proof.
  intros Hk Hs Hd1 Hd2 Hw.
  pose proof (dirname_absolute key Hk) as Hdk.
  unfold download_by_key, download_by_key_body, download_fileobj.
  rewrite Hs. simpl. unfold os_makedirs, write_file.
  rewrite (join_absolute d key Hk), (join_absolute d _ Hdk).
  destruct (String.eqb_spec (os_path_dirname key) "") as [He|He].
  { rewrite He in Hdk. discriminate. }
  rewrite Hd1, Hd2, Hw. simpl. split; [reflexivity|]. split; reflexivity.
Qed.

End DownloadByKeyFacts.

Lemma X4_dict_format_no_disk_witness :
  let '(r, st') := download_by_key (fun _ _ => Some [Byte.x7b; Byte.x7d])
                     (fun _ => false) (fun _ => None) (fun b => Ok b)
                     (mk_dl_state [] (mk_fsys [] [])) "bk" "a/b.json" "dict"
                     (Some "out") in
  r = Some ("a/b.json", PDict [Byte.x7b; Byte.x7d]).
Proof.
  pose proof (X4_dict_format_no_disk (fun _ _ => Some [Byte.x7b; Byte.x7d])
                (fun _ => false) (fun _ => None) (fun b => Ok b) (mk_dl_state [] (mk_fsys [] []))
                "bk" "a/b.json" (Some "out")) as H.
  vm_compute in H. destruct H as [_ [_ H]].
  specialize (H [Byte.x7b; Byte.x7d] [Byte.x7b; Byte.x7d] eq_refl eq_refl).
  vm_compute. exact H.
Defined.

Lemma X6_top_level_key_empty_dir_fails_witness :
  let '(r, st') := download_by_key (fun _ _ => Some [Byte.x61]) (fun _ => false)
                     (fun _ => None) (fun b => Ok b) (mk_dl_state [] (mk_fsys [] [])) "bk"
                     "a.json" "bytes" (Some "") in
  r = None /\ fs st' = mk_fsys [] [].
Proof.
  exact (X6_top_level_key_empty_dir_fails (fun _ _ => Some [Byte.x61])
           (fun _ => false) (fun _ => None) (fun b => Ok b) (mk_dl_state [] (mk_fsys [] []))
           "bk" "a.json" eq_refl).
Defined.

Lemma X7_absolute_key_ignores_output_dir_witness :
  let '(r, st') := download_by_key (fun _ _ => Some [Byte.x61]) (fun _ => false)
                     (fun _ => None) (fun b => Ok b) (mk_dl_state [] (mk_fsys [] [])) "bk"
                     "/etc/x.conf" "bytes" (Some "out") in
  r = Some ("/etc/x.conf", PBytes [Byte.x61])
  /\ fs_dirs (fs st') = ["/etc"]
  /\ fs_files (fs st') = [("/etc/x.conf", [Byte.x61])].
Proof.
  exact (X7_absolute_key_ignores_output_dir (fun _ _ => Some [Byte.x61])
           (fun _ => false) (fun _ => None) (fun b => Ok b) (mk_dl_state [] (mk_fsys [] []))
           "bk" "/etc/x.conf" "out" [Byte.x61] eq_refl eq_refl eq_refl eq_refl eq_refl).
Defined.

(** ** [download_by_keys] and [download_by_prefixes] *)

Lemma dict_get_set_other {V} (k k' : string) (v : V) (d : list (string * V)) :
  k <> k' -> dict_get k (dict_set k' v d) = dict_get k d.
Proof.
  intros Hne. induction d as [|[k0 v0] d IH]; simpl.
  - destruct (String.eqb_spec k k'); [contradiction | reflexivity].
  - destruct (String.eqb_spec k' k0) as [<-|Hne']; simpl.
    + destruct (String.eqb_spec k k'); [contradiction | reflexivity].
    + destruct (String.eqb_spec k k0); [reflexivity | exact IH].
Qed.

Lemma flat_map_single {X Y} (h : X -> Y) (l : list X) :
  flat_map (fun x => [h x]) l = map h l.
Proof. induction l as [|x l IH]; simpl; [reflexivity|]. rewrite IH; reflexivity. Qed.

Lemma concat_all_nil {X} (l : list (list X)) :
  (forall x, In x l -> x = []) -> List.concat l = [].
Proof.
  induction l as [|x l IH]; intros H; simpl; [reflexivity|].
  rewrite (H x (or_introl eq_refl)), IH; [reflexivity|].
  intros y Hy. apply H. right. exact Hy.
Qed.

Section DownloadBatchFacts.

Variable store : string -> string -> option (list Byte.byte).
Variable denied : string -> bool.
Variable write_fault : string -> option nat.
Context {json : Type}.
Variable json_loads : list Byte.byte -> Exc json.

Lemma fan_in_update_all_some (v : string -> payload json) (ks : list string) :
  forall acc, exists d,
    fan_in merge_update acc (map (fun k => Some (k, v k)) ks) = Ok d
    /\ forall k, (In k ks -> dict_get k d = Some (v k))
                 /\ (~ In k ks -> dict_get k d = dict_get k acc).
Proof.
  induction ks as [|k0 ks IH]; intros acc.
  - exists acc. split; [reflexivity|]. intros k. split; [intros []| reflexivity].
  - destruct (IH (dict_set k0 (v k0) acc)) as [d [Hd Hk]].
    exists d. split; [exact Hd|]. intros k. destruct (Hk k) as [Hin Hout].
    destruct (in_dec String.string_dec k ks) as [H|H].
    { split; intros; [exact (Hin H)|]. exfalso. apply H0. right. exact H. }
    rewrite (Hout H). split.
    + intros [<- | H']; [apply dict_get_set | contradiction].
    + intros H'. apply dict_get_set_other. intros ->. apply H'. left. reflexivity.
Qed.


Lemma completed_map {A R} (f : A -> R) (items : list A) (sched : list nat) :
  completed f items sched = map f (completed (fun a => a) items sched).
Proof.
  unfold completed. induction sched as [|i sched IH]; simpl; [reflexivity|].
  rewrite map_app, IH. destruct (nth_error items i); reflexivity.
Qed.

Lemma download_worker_bytes_no_dir (s : dl_state) (bucket k : string) :
  fst (download_by_key store denied write_fault json_loads s bucket k "bytes" None)
  = match store bucket k with
    | Some data => Some (k, PBytes data)
    | None => None
    end.
Proof.
  unfold download_by_key, download_by_key_body, download_fileobj.
  destruct (store bucket k); reflexivity.
Qed.

(** For a non-empty [keys], once the client is created and every job
    runs, when every requested key can be fetched, [download_by_keys] with
    [output_format='bytes'] and [output_dir=None] returns a mapping whose
    keys are exactly the distinct requested keys, each mapped to its
    object's bytes, whatever the completion order. *)
Theorem X8_all_fetched_mapping (rt : runtime) (bucket : string)
    (keys : list string) (st : dl_state) :
  keys <> [] -> rt_create rt = Ok tt -> rt_fault rt = None ->
  Permutation (rt_sched rt) (seq 0 (List.length keys)) ->
  (forall k, In k keys -> store bucket k <> None) ->
  exists d,
    fst (fst (download_by_keys store denied write_fault json_loads rt bucket keys "bytes"
                None st)) = Ok (Some d)
    /\ forall k, (In k keys -> dict_get k d = option_map PBytes (store bucket k))
                 /\ (~ In k keys -> dict_get k d = None).
Proof.
  intros Hne Hc Hf Hp Hall.
  set (f := fun k => match store bucket k with
                     | Some data => Some (k, @PBytes json data)
                     | None => None
                     end).
  set (v := fun k => @PBytes json (match store bucket k with
                                   | Some data => data
                                   | None => []
                                   end)).
  unfold download_by_keys.
  rewrite (fan_out_full_result _ merge_update [] f rt keys st
             (fun a s => download_worker_bytes_no_dir s bucket a) Hne Hc Hf Hp).
  set (ks := completed (fun a => a) keys (rt_sched rt)).
  assert (Hks : forall k, In k ks <-> In k keys).
  { intros k. split.
    - intros H. destruct (completed_in _ _ _ _ H) as [a [Ha ->]]. exact Ha.
    - intros H. apply (Permutation_in _ (Permutation_sym
                         (completed_perm (fun a => a) keys _ Hp))).
      rewrite map_id. exact H. }
  assert (Hmap : completed f keys (rt_sched rt) = map (fun k => Some (k, v k)) ks).
  { rewrite completed_map. apply map_ext_in. intros k Hk.
    apply Hks in Hk. specialize (Hall k Hk). unfold f, v.
    destruct (store bucket k); [reflexivity | contradiction]. }
  rewrite Hmap.
  destruct (fan_in_update_all_some v ks []) as [d [Hd Hk]].
  rewrite Hd. exists d. split; [reflexivity|]. intros k.
  destruct (Hk k) as [Hin Hout]. split.
  - intros H. rewrite (Hin (proj2 (Hks k) H)). unfold v.
    specialize (Hall k H). destruct (store bucket k); [reflexivity | contradiction].
  - intros H. apply Hout. intros H'. apply H, Hks, H'.
Qed.

(** [download_by_keys] fetches each requested key once per occurrence in
    [keys] (duplicates included) and nothing else: its fetch log grows by
    a permutation of the requested [(bucket, key)] pairs. *)
Theorem X9_one_fetch_per_occurrence (rt : runtime) (bucket : string)
    (keys : list string) (output_format : string) (output_dir : option string)
    (st : dl_state) :
  keys <> [] -> rt_create rt = Ok tt -> rt_fault rt = None ->
  Permutation (rt_sched rt) (seq 0 (List.length keys)) ->
  Permutation
    (fetches (snd (fst (download_by_keys store denied write_fault json_loads rt bucket keys
                          output_format output_dir st))))
    (fetches st ++ map (pair bucket) keys).
Proof.
  intros Hne Hc Hf Hp. unfold download_by_keys, fan_out.
  destruct keys as [|k0 ks]; [congruence|].
  replace (Nat.ltb 0 (List.length (k0 :: ks))) with true by reflexivity.
  rewrite Hc, Hf. simpl submitted. rewrite Nat.ltb_irrefl.
  rewrite (filter_all_true _ (rt_sched rt)).
  2:{ intros i Hi. apply Nat.ltb_lt. exact (sched_bound _ _ Hp i Hi). }
  pose proof (run_units_log
                (fun key s => download_by_key store denied write_fault json_loads s bucket key
                                output_format output_dir)
                fetches (fun k => [(bucket, k)]) (k0 :: ks) (rt_sched rt)
                (fun a s => download_by_key_fetch_log store denied write_fault json_loads
                              s bucket a output_format output_dir) st) as H.
  destruct (run_units _ (k0 :: ks) (rt_sched rt) st) as [[rs s'] ev].
  cbn [fst snd] in H |- *. rewrite H.
  apply Permutation_app_head.
  rewrite <- (flat_map_single (pair bucket) (k0 :: ks)).
  rewrite <- (flat_map_nth_seq (fun k => [(bucket, k)]) (k0 :: ks)).
  apply Permutation_flat_map. exact Hp.
Qed.

Lemma download_by_keys_none_raises (rt : runtime) (bucket : string)
    (keys : list string) (output_format : string) (output_dir : option string)
    (st : dl_state) (k : string) :
  rt_create rt = Ok tt -> rt_fault rt = None ->
  Permutation (rt_sched rt) (seq 0 (List.length keys)) ->
  In k keys ->
  (forall s, fst (download_by_key store denied write_fault json_loads s bucket k
                    output_format output_dir) = None) ->
  fst (fst (download_by_keys store denied write_fault json_loads rt bucket keys
              output_format output_dir st)) = Raise TypeError.
Proof.
  intros Hc Hf Hp Hk Hnone.
  destruct (In_nth_error keys k Hk) as [i Ei].
  assert (Hi : i < List.length keys) by (apply nth_error_Some; congruence).
  unfold download_by_keys, fan_out.
  replace (Nat.ltb 0 (List.length keys)) with true
    by (symmetry; apply Nat.ltb_lt; lia).
  rewrite Hc, Hf. simpl submitted. rewrite Nat.ltb_irrefl.
  set (w := fun (key : string) (s : dl_state) =>
         download_by_key store denied write_fault json_loads s bucket key output_format output_dir).
  set (sched' := filter (fun j => Nat.ltb j (List.length keys)) (rt_sched rt)).
  assert (Hin : In i sched').
  { apply filter_In. split.
    - apply (Permutation_in _ (Permutation_sym Hp)), in_seq. lia.
    - apply Nat.ltb_lt. exact Hi. }
  pose proof (run_units_in w keys i k None Ei Hnone sched' st Hin) as Hr.
  destruct (run_units w keys sched' st) as [[rs s'] ev].
  simpl in *. rewrite fan_in_update_none by exact Hr. reflexivity.
Qed.

(** For a non-empty [prefixes], once the listing client is created and
    every listing job runs, when none of the prefixes lists any key,
    [download_by_prefixes] returns [None] (the [return None] of
    [download_by_keys] on an empty
    list): nothing is fetched or written and no download client or pool
    is created; the only events are those of the listing. *)
Theorem X11_no_keys_returns_None (listing : string -> list page)
    (rt_list rt_dl : runtime) (bucket : string) (prefixes : list string)
    (output_format : string) (output_dir : option string)
    (log : list request) (st : dl_state) :
  prefixes <> [] -> rt_create rt_list = Ok tt -> rt_fault rt_list = None ->
  Permutation (rt_sched rt_list) (seq 0 (List.length prefixes)) ->
  (forall p, In p prefixes ->
     fst (list_keys_by_prefix (mk_client (listing p) []) bucket p) = []) ->
  let res := download_by_prefixes store denied write_fault json_loads listing rt_list rt_dl
               bucket prefixes output_format output_dir log st in
  fst (fst (fst res)) = Ok None
  /\ snd (fst res) = st
  /\ snd res = snd (list_keys_by_prefixes listing rt_list bucket prefixes log).
Proof.
  intros Hne Hc Hf Hp Hnil res.
  assert (HL : fst (fst (list_keys_by_prefixes listing rt_list bucket prefixes log))
               = Ok (Some [])).
  { unfold list_keys_by_prefixes.
    assert (Hw : forall a s, fst (list_worker list_keys_by_prefix listing bucket a s)
                             = fst (list_keys_by_prefix (mk_client (listing a) [])
                                      bucket a))
      by (intros a s; exact (list_worker_result None contents listing bucket a s)).
    rewrite (fan_out_full_result (list_worker list_keys_by_prefix listing bucket)
               merge_extend []
               (fun p => fst (list_keys_by_prefix (mk_client (listing p) []) bucket p))
               rt_list prefixes log Hw Hne Hc Hf Hp).
    rewrite fan_in_extend. simpl. f_equal. f_equal.
    apply concat_all_nil. intros x Hx.
    destruct (completed_in _ _ _ _ Hx) as [p [Hp' ->]]. exact (Hnil p Hp'). }
  unfold res, download_by_prefixes.
  destruct (list_keys_by_prefixes listing rt_list bucket prefixes log)
    as [[rk log'] ev1].
  simpl in HL. subst rk. simpl. rewrite app_nil_r. auto.
Qed.

End DownloadBatchFacts.

Definition demo_store (b k : string) : option (list Byte.byte) :=
  if String.eqb k "a" then Some [Byte.x61]
  else if String.eqb k "b" then Some [Byte.x62]
  else None.

Lemma X8_all_fetched_mapping_witness :
  exists d,
    fst (fst (download_by_keys demo_store (fun _ => false) (fun _ => None) (fun b => @Ok (list Byte.byte) b)
                (mk_runtime (Ok tt) None [1; 0]) "bk" ["a"; "b"] "bytes" None
                (mk_dl_state [] (mk_fsys [] []))))
    = Ok (Some d)
    /\ forall k, (In k ["a"; "b"] -> dict_get k d = option_map PBytes (demo_store "bk" k))
                 /\ (~ In k ["a"; "b"] -> dict_get k d = None).
Proof.
  apply (X8_all_fetched_mapping demo_store (fun _ => false) (fun _ => None) (fun b => Ok b)
           (mk_runtime (Ok tt) None [1; 0]) "bk" ["a"; "b"]
           (mk_dl_state [] (mk_fsys [] []))).
  - discriminate.
  - reflexivity.
  - reflexivity.
  - simpl. apply perm_swap.
  - intros k [<- | [<- | []]]; vm_compute; discriminate.
Defined.

Lemma X9_one_fetch_per_occurrence_witness :
  Permutation
    (fetches (snd (fst (download_by_keys demo_store (fun _ => false)
                          (fun _ => None) (fun b => @Ok (list Byte.byte) b)
                          (mk_runtime (Ok tt) None [1; 0]) "bk" ["a"; "a"] "dict" None
                          (mk_dl_state [] (mk_fsys [] []))))))
    ([] ++ map (pair "bk") ["a"; "a"]).
Proof.
  apply (X9_one_fetch_per_occurrence demo_store (fun _ => false) (fun _ => None) (fun b => Ok b)
           (mk_runtime (Ok tt) None [1; 0]) "bk" ["a"; "a"] "dict" None
           (mk_dl_state [] (mk_fsys [] []))).
  - discriminate.
  - reflexivity.
  - reflexivity.
  - simpl. apply perm_swap.
Defined.

Lemma X11_no_keys_returns_None_witness :
  let res := download_by_prefixes demo_store (fun _ => false)
               (fun _ => None) (fun b => @Ok (list Byte.byte) b) (fun _ => [pg [] None])
               (mk_runtime (Ok tt) None [1; 0]) (mk_runtime (Ok tt) None [])
               "bk" ["x/"; "y/"] "bytes" (Some "") [] (mk_dl_state [] (mk_fsys [] [])) in
  fst (fst (fst res)) = Ok None
  /\ snd (fst res) = mk_dl_state [] (mk_fsys [] [])
  /\ snd res = snd (list_keys_by_prefixes (fun _ => [pg [] None])
                     (mk_runtime (Ok tt) None [1; 0]) "bk" ["x/"; "y/"] []).
Proof.
  apply (X11_no_keys_returns_None demo_store (fun _ => false) (fun _ => None) (fun b => Ok b)
           (fun _ => [pg [] None]) (mk_runtime (Ok tt) None [1; 0])
           (mk_runtime (Ok tt) None []) "bk" ["x/"; "y/"] "bytes" (Some "") []
           (mk_dl_state [] (mk_fsys [] []))).
  - discriminate.
  - reflexivity.
  - reflexivity.
  - simpl. apply perm_swap.
  - intros p [<- | [<- | []]]; reflexivity.
Defined.

(** ** The command line *)

(** [s3download -k ...] with the default [-d ''] downloads with
    [output_dir=''], so a key without ['/'] makes [os.makedirs('')] fail,
    [download_by_key] returns [None] and [main] raises [TypeError],
    whether or not the object exists. *)
Theorem X12_cli_top_level_key_raises
    (store : string -> string -> option (list Byte.byte))
    (denied : string -> bool) (write_fault : string -> option nat) {json : Type} (json_loads : list Byte.byte -> Exc json)
    (listing : string -> list page) (rt_list rt_dl : runtime)
    (bucket : string) (prefixes : option (list string)) (keys : list string)
    (log : list request) (st : dl_state) (k : string) :
  rt_create rt_dl = Ok tt -> rt_fault rt_dl = None ->
  Permutation (rt_sched rt_dl) (seq 0 (List.length keys)) ->
  In k keys ->
  forallb (fun c => negb (Ascii.eqb c slash)) (list_ascii_of_string k) = true ->
  fst (fst (fst (fst (main store denied write_fault json_loads listing rt_list rt_dl
                        (mk_cli_args (Some "s3download") bucket prefixes (Some keys) "")
                        log st)))) = Raise TypeError.
Proof.
  intros Hc Hf Hp Hk Hslash.
  pose proof (download_by_keys_none_raises store denied write_fault json_loads rt_dl bucket keys
                "bytes" (Some "") st k Hc Hf Hp Hk
                (fun s => download_by_key_top_level_none store denied write_fault json_loads
                            s bucket k Hslash)) as H.
  destruct keys as [|k0 ks]; [destruct Hk|].
  unfold main. cbn [arg_func arg_bucket arg_prefixes arg_keys arg_output_dir].
  replace (func_is (Some "s3download") "s3list") with false by reflexivity.
  replace (func_is (Some "s3download") "s3download") with true by reflexivity.
  destruct (download_by_keys store denied write_fault json_loads rt_dl bucket (k0 :: ks) "bytes"
              (Some "") st) as [[r st'] ev].
  simpl in H. subst r. reflexivity.
Qed.

Lemma X12_cli_top_level_key_raises_witness :
  fst (fst (fst (fst (main demo_store (fun _ => false) (fun _ => None) (fun b => @Ok (list Byte.byte) b)
                        (fun _ => []) (mk_runtime (Ok tt) None [])
                        (mk_runtime (Ok tt) None [1; 0])
                        (mk_cli_args (Some "s3download") "bk" None (Some ["d/x"; "a"]) "")
                        [] (mk_dl_state [] (mk_fsys [] [])))))) = Raise TypeError.
Proof.
  apply (X12_cli_top_level_key_raises demo_store (fun _ => false) (fun _ => None) (fun b => Ok b)
           (fun _ => []) (mk_runtime (Ok tt) None []) (mk_runtime (Ok tt) None [1; 0])
           "bk" None ["d/x"; "a"] [] (mk_dl_state [] (mk_fsys [] [])) "a").
  - reflexivity.
  - reflexivity.
  - simpl. apply perm_swap.
  - right. left. reflexivity.
  - reflexivity.
Defined.

(** [s3list] with a non-empty [-p] list, once the client is created and
    no job is lost, finishes normally and prints exactly one line: a list
    (never [None]) that is a permutation of the prefixes' listings
    concatenated in input order; it downloads nothing. *)
Theorem X14_s3list_prints_one_list
    (store : string -> string -> option (list Byte.byte))
    (denied : string -> bool) (write_fault : string -> option nat) {json : Type} (json_loads : list Byte.byte -> Exc json)
    (listing : string -> list page) (rt_list rt_dl : runtime)
    (bucket : string) (prefixes : list string) (keys : option (list string))
    (output_dir : string) (log : list request) (st : dl_state) :
  prefixes <> [] -> rt_create rt_list = Ok tt -> rt_fault rt_list = None ->
  Permutation (rt_sched rt_list) (seq 0 (List.length prefixes)) ->
  let '(r, _, st', _, out) :=
    main store denied write_fault json_loads listing rt_list rt_dl
      (mk_cli_args (Some "s3list") bucket (Some prefixes) keys output_dir) log st in
  r = Ok tt /\ st' = st
  /\ exists ks, out = [Some ks]
     /\ Permutation ks
          (List.concat (map (fun p => fst (list_keys_by_prefix (mk_client (listing p) [])
                                             bucket p)) prefixes)).
Proof.
  intros Hne Hc Hf Hp.
  set (f := fun p => fst (list_keys_by_prefix (mk_client (listing p) []) bucket p)).
  assert (Hw : forall a s, fst (list_worker list_keys_by_prefix listing bucket a s) = f a)
    by (intros a s; exact (list_worker_result None contents listing bucket a s)).
  pose proof (fan_out_full_result (list_worker list_keys_by_prefix listing bucket)
                merge_extend [] f rt_list prefixes log Hw Hne Hc Hf Hp) as H.
  rewrite fan_in_extend in H.
  unfold main. cbn [arg_func arg_bucket arg_prefixes arg_keys arg_output_dir].
  replace (func_is (Some "s3list") "s3list") with true by reflexivity.
  unfold list_keys_by_prefixes.
  destruct (fan_out (list_worker list_keys_by_prefix listing bucket) merge_extend []
              rt_list prefixes log) as [[r log'] ev].
  simpl in H. subst r.
  split; [reflexivity|]. split; [reflexivity|].
  eexists. split; [reflexivity|].
  apply concat_perm. exact (completed_perm f prefixes _ Hp).
Qed.

Lemma X14_s3list_prints_one_list_witness :
  let listing := fun p => if String.eqb p "x/" then [pg ["x/a"] None]
                          else [pg ["y/b"] None] in
  let '(r, _, st', _, out) :=
    main demo_store (fun _ => false) (fun _ => None) (fun b => @Ok (list Byte.byte) b) listing
      (mk_runtime (Ok tt) None [1; 0]) (mk_runtime (Ok tt) None [])
      (mk_cli_args (Some "s3list") "bk" (Some ["x/"; "y/"]) None "") []
      (mk_dl_state [] (mk_fsys [] [])) in
  r = Ok tt /\ st' = mk_dl_state [] (mk_fsys [] [])
  /\ exists ks, out = [Some ks]
     /\ Permutation ks
          (List.concat (map (fun p => fst (list_keys_by_prefix (mk_client (listing p) [])
                                             "bk" p)) ["x/"; "y/"])).
Proof.
  intros listing.
  apply (X14_s3list_prints_one_list demo_store (fun _ => false) (fun _ => None) (fun b => Ok b) listing
           (mk_runtime (Ok tt) None [1; 0]) (mk_runtime (Ok tt) None []) "bk"
           ["x/"; "y/"] None "" [] (mk_dl_state [] (mk_fsys [] []))).
  - discriminate.
  - reflexivity.
  - reflexivity.
  - simpl. apply perm_swap.
Defined.
